(** * asyncapi_eventrouter: the channel / event registry and its dispatch pipeline

    A shallow embedding of [src/asyncapi_eventrouter/router.py].  Every Python
    class is a module holding a record for the instance attributes and one
    definition per method.  A method of class [C] that registers or
    dispatches is a computation in the monad [M C.t], which threads the
    receiver ([self]), the process-wide log of observable effects (warnings,
    handler invocations) and a possible exception; the state reached when an
    exception is raised is kept, as it is in Python.  The [schema] methods
    only read their receiver: they are functions to an outcome, the dict
    they build or the exception that a shape's [schema()] raised.
    Dictionaries are
    [gmap string _]: two dicts are equal when they hold the same items,
    whatever the order of insertion. *)

From stdpp Require Import gmap strings list fin_maps.

Set Warnings "-register-all".

(** ** Python values *)

(** The fragment of Python's value universe that flows through the router:
    decoded JSON ([None], booleans, integers, strings, lists, dicts) and
    instances of model classes. *)
Inductive value : Type :=
| VNone
| VBool (b : bool)
| VInt (z : Z)
| VStr (s : string)
| VList (l : list value)
| VDict (d : gmap string value)
| VObj (cls : string) (fields : gmap string value).

(** ** Exceptions and outcomes *)

Inductive exn : Type :=
| Exception_                              (* the bare [Exception()] of [Subscription.__init__] *)
| TypeError (msg : string)                (* [**data] applied to something that is no mapping *)
| KeyError (key : string)                 (* [d[key]] on a missing key *)
| IndexError                              (* [l[i]] out of range *)
| Foreign (cls : string) (detail : value) (* whatever a collaborator raises, e.g. pydantic's ValidationError *).

Inductive outcome (A : Type) : Type :=
| Return (a : A)
| Raise (e : exn).
Arguments Return {A} a.
Arguments Raise {A} e.

(** Sequencing on outcomes: the first exception ends the computation. *)
Definition and_then {A B} (o : outcome A) (k : A → outcome B) : outcome B :=
  match o with
  | Return a => k a
  | Raise e => Raise e
  end.

(** ** Collaborators *)

(** A payload shape: the object found as the annotation of a handler's
    parameter (or handed to [Publish]).  The router stores it unchecked, so
    it can be any Python object; the router uses it in two ways only: it
    calls it with keyword arguments ([self.model( **data)]), and it asks for
    its schema ([self.model.schema()]).  For a pydantic model class the call
    validates and yields the typed value or raises the validation error, and
    [schema()] returns the description; for another object either may raise
    (an annotation that is not callable, a class without [schema], the
    [inspect.Parameter.empty] of a parameter declared without annotation). *)
Module Model.
Record t : Type := {
  name : string;
  call : gmap string value → outcome value;
  schema : outcome value
}.
End Model.

(** A handler: a Python callable, seen through [inspect.signature] (its
    parameters with their annotations) and through what a call with one
    positional argument returns or raises.  A handler is taken as a function
    of its argument: one that keeps state of its own, or that calls back
    into the router it is registered in, is outside this model. *)
Module Func.
Record Param : Type := {
  param_name : string;
  annotation : Model.t
}.
Record t : Type := {
  qualname : string;
  parameters : list Param;
  call : value → outcome value
}.
End Func.

(** ** Observable effects *)

Inductive effect : Type :=
| Warned (message : string)              (* [warnings.warn(message)] *)
| Invoked (f : Func.t) (arg : value)     (* the handler [f] was called with [arg] *).

(** ** The monad of methods *)

Definition M (S A : Type) : Type :=
  S → list effect → outcome A * S * list effect.

Global Instance M_ret {S} : MRet (M S) :=
  λ A (a : A) self log, (Return a, self, log).

Global Instance M_bind {S} : MBind (M S) :=
  λ A B (k : A → M S B) (m : M S A) self log,
    match m self log with
    | (Return a, self', log') => k a self' log'
    | (Raise e, self', log') => (Raise e, self', log')
    end.

Definition raise {S A} (e : exn) : M S A := λ self log, (Raise e, self, log).

Definition lift {S A} (o : outcome A) : M S A := λ self log, (o, self, log).

Definition gets {S A} (f : S → A) : M S A := λ self log, (Return (f self), self, log).

Definition modify {S} (f : S → S) : M S unit := λ self log, (Return tt, f self, log).

(** A method that only reads its receiver, and may raise. *)
Definition reads {S A} (f : S → outcome A) : M S A := λ self log, (f self, self, log).

(** [warnings.warn(message)]: the warning is handed to the process-wide
    warnings machinery; here it is appended to the log.  What the process's
    warning filters then do with it (show it, drop it) is not the router's
    business. *)
Definition warn {S} (message : string) : M S unit :=
  λ self log, (Return tt, self, log ++ [Warned message]).

(** Calling a handler with one positional argument.  The call is logged;
    what the handler does besides returning or raising is its own affair. *)
Definition invoke {S} (f : Func.t) (arg : value) : M S value :=
  λ self log, (Func.call f arg, self, log ++ [Invoked f arg]).

(** [field[key].method(...)]: run the method [m] on the object stored under
    [key] in a dict attribute of [self].  The object is shared with the dict,
    so whatever the method does to it is seen through the dict afterwards,
    also when the method raises. *)
Definition on_item {S T A} (field : S → gmap string T)
    (set_field : gmap string T → S → S) (key : string) (m : M T A) : M S A :=
  λ self log,
    match field self !! key with
    | None => (Raise (KeyError key), self, log)
    | Some obj =>
        let '(r, obj', log') := m obj log in
        (r, set_field (<[key := obj']> (field self)) self, log')
    end.

(** [f( **data)]: [data] must be a mapping (its keys are strings here). *)
Definition call_kwargs {S} (model : Model.t) (data : value) : M S value :=
  match data with
  | VDict kwargs => lift (Model.call model kwargs)
  | _ => raise (TypeError "argument after ** must be a mapping")
  end.

(** ** class Event(BaseModel) *)

Module Event.
Record t : Type := {
  channel : string;
  event : string;
  data : value
}.
End Event.

(** ** class Subscription *)

Module Subscription.
Record t : Type := {
  func : Func.t;
  signature : list Func.Param;
  model : Model.t
}.

(** [__init__(self, func)] *)
Definition init (func : Func.t) : outcome t :=
  let signature := Func.parameters func in
  let func_params := signature in
  if decide (length func_params ≠ 1) then Raise Exception_
  else
    match func_params !! 0%nat with
    | Some p => Return {| func := func; signature := signature;
                          model := Func.annotation p |}
    | None => Raise IndexError
    end.

(** [process(self, data)] *)
Definition process (data : value) : M t value :=
  model ← gets model;
  validated ← call_kwargs model data;
  func ← gets func;
  invoke func validated.

(** [schema(self)] *)
Definition schema (self : t) : outcome value :=
  and_then (Model.schema (model self)) (λ s, Return (VDict {[ "payload" := s ]})).
End Subscription.

(** ** class Publish *)

Module Publish.
Record t : Type := {
  model : Model.t
}.

(** [__init__(self, model)] *)
Definition init (model : Model.t) : t := {| model := model |}.

(** [schema(self)] *)
Definition schema (self : t) : outcome value :=
  and_then (Model.schema (model self)) (λ s, Return (VDict {[ "payload" := s ]})).
End Publish.

(** ** class Channel *)

(** [for key, item in d.items(): ...], the body updating an accumulator; the
    loop ends at the first exception.  Python visits the items in the order
    of insertion, which a [gmap] does not record: when several items raise,
    the exception that surfaces here need not be the one Python meets first.
    Nothing stated below depends on which one it is. *)
Definition for_items {T B} (d : gmap string T)
    (body : string → T → B → outcome B) (init : B) : outcome B :=
  map_fold (λ key item acc, and_then acc (body key item)) (Return init) d.

(** [out[key][event_name] = v] on a [collections.defaultdict(dict)]: reading
    a missing [key] first stores an empty dict under it. *)
Definition defaultdict_setitem2 (key event_name : string) (v : value)
    (out : gmap string (gmap string value)) : gmap string (gmap string value) :=
  <[key := <[event_name := v]> (default ∅ (out !! key))]> out.

Module Channel.
Record t : Type := {
  publishers : gmap string Publish.t;
  subscribers : gmap string Subscription.t
}.

(** [__init__(self)] *)
Definition init : t := {| publishers := ∅; subscribers := ∅ |}.

Definition set_subscribers (d : gmap string Subscription.t) (self : t) : t :=
  {| publishers := publishers self; subscribers := d |}.

Definition set_publishers (d : gmap string Publish.t) (self : t) : t :=
  {| publishers := d; subscribers := subscribers self |}.

(** [register_subscription(self, event_name, func)] *)
Definition register_subscription (event_name : string) (func : Func.t) : M t value :=
  known ← gets (λ self, bool_decide (is_Some (subscribers self !! event_name)));
  (if known : bool
   then warn ("overwriting existing subscription for " +:+ event_name)
   else mret tt);;
  sub ← lift (Subscription.init func);
  modify (λ self, set_subscribers (<[event_name := sub]> (subscribers self)) self);;
  mret VNone.

(** [register_publish(self, event_name, model)] *)
Definition register_publish (event_name : string) (model : Model.t) : M t value :=
  known ← gets (λ self, bool_decide (is_Some (publishers self !! event_name)));
  (if known : bool
   then warn ("overwriting existing publish for " +:+ event_name)
   else mret tt);;
  let pub := Publish.init model in
  modify (λ self, set_publishers (<[event_name := pub]> (publishers self)) self);;
  mret VNone.

(** [subscribe(self, event_name)]: the decorator it returns. *)
Definition subscribe (event_name : string) : Func.t → M t Func.t :=
  λ func,
    register_subscription event_name func;;
    mret func.

(** [process(self, event_name, data)] *)
Definition process (event_name : string) (data : value) : M t value :=
  known ← gets (λ self, bool_decide (is_Some (subscribers self !! event_name)));
  if known : bool
  then on_item subscribers set_subscribers event_name (Subscription.process data)
  else mret VNone.

(** [schema(self)] *)
Definition schema (self : t) : outcome value :=
  let out : gmap string (gmap string value) := ∅ in
  and_then
    (for_items (subscribers self)
       (λ event_name subscription out,
          and_then (Subscription.schema subscription)
            (λ s, Return (defaultdict_setitem2 "publish" event_name s out)))
       out)
    (λ out,
       and_then
         (for_items (publishers self)
            (λ event_name publisher out,
               and_then (Publish.schema publisher)
                 (λ s, Return (defaultdict_setitem2 "subscribe" event_name s out)))
            out)
         (λ out, Return (VDict (VDict <$> out)))).
End Channel.

(** ** class ChannelRouter *)

Module ChannelRouter.
Record t : Type := {
  channels : gmap string Channel.t
}.

(** [__init__(self)] *)
Definition init : t := {| channels := ∅ |}.

Definition set_channels (d : gmap string Channel.t) (self : t) : t :=
  {| channels := d |}.

(** [register_subscription(self, channel_name, event_name, func)] *)
Definition register_subscription (channel_name event_name : string)
    (func : Func.t) : M t value :=
  known ← gets (λ self, bool_decide (is_Some (channels self !! channel_name)));
  (if known : bool
   then mret tt
   else modify (λ self, set_channels (<[channel_name := Channel.init]> (channels self)) self));;
  on_item channels set_channels channel_name
    (Channel.register_subscription event_name func).

(** [subscribe(self, channel_name, event_name)]: the decorator it returns. *)
Definition subscribe (channel_name event_name : string) : Func.t → M t Func.t :=
  λ func,
    register_subscription channel_name event_name func;;
    mret func.

(** [process(self, channel_name, event_name, data)] *)
Definition process (channel_name event_name : string) (data : value) : M t value :=
  known ← gets (λ self, bool_decide (is_Some (channels self !! channel_name)));
  if known : bool
  then on_item channels set_channels channel_name (Channel.process event_name data)
  else mret VNone.

(** [schema(self)] *)
Definition schema (self : t) : outcome value :=
  let out : gmap string value := ∅ in
  and_then
    (for_items (channels self)
       (λ name channel out,
          and_then (Channel.schema channel) (λ s, Return (<[name := s]> out)))
       out)
    (λ out, Return (VDict out)).
End ChannelRouter.

(** ** class Application *)

(** [Event.parse_raw] is pydantic's: it decodes a raw message into an [Event]
    or raises.  It is a parameter of the development. *)
Class Decoder : Type := parse_raw : string → outcome Event.t.

Module Application.
Record t : Type := {
  router : ChannelRouter.t
}.

(** [__init__(self)] *)
Definition init : t := {| router := ChannelRouter.init |}.

Definition set_router (r : ChannelRouter.t) (self : t) : t := {| router := r |}.

(** [self.router.method(...)]: the router is an object owned by [self]. *)
Definition on_router {A} (m : M ChannelRouter.t A) : M t A :=
  λ self log,
    let '(r, router', log') := m (router self) log in
    (r, set_router router' self, log').

(** [register_subscription(self, channel, name, func)] *)
Definition register_subscription (channel name : string) (func : Func.t) : M t value :=
  on_router (ChannelRouter.register_subscription channel name func).

(** [subscribe(self, channel_name, event_name)]: the decorator it returns. *)
Definition subscribe (channel_name event_name : string) : Func.t → M t Func.t :=
  λ func,
    register_subscription channel_name event_name func;;
    mret func.

Section WithDecoder.
Context `{Decoder}.

(** [process(self, message)] *)
Definition process (message : string) : M t value :=
  event ← lift (parse_raw message);
  on_router (ChannelRouter.process (Event.channel event) (Event.event event)
                                   (Event.data event)).
End WithDecoder.

(** [schema(self)] *)
Definition schema (self : t) : outcome value :=
  let out : gmap string value := {[ "asyncapi" := VStr "2.2.0" ]} in
  and_then (ChannelRouter.schema (router self))
    (λ channels, let out := <["channels" := channels]> out in Return (VDict out)).
End Application.

(** ** Sample shapes and handlers *)

Module Samples.
(** A shape with one required string field [text]. *)
Definition TextMessage : Model.t := {|
  Model.name := "TextMessage";
  Model.call := λ kwargs,
    match kwargs !! "text" with
    | Some (VStr s) => Return (VObj "TextMessage" {[ "text" := VStr s ]})
    | _ => Raise (Foreign "ValidationError" (VStr "text: field required"))
    end;
  Model.schema :=
    Return (VDict {[ "title" := VStr "TextMessage"; "type" := VStr "object";
                     "required" := VList [VStr "text"] ]})
|}.

(** A shape with one required string field [trackingId]. *)
Definition Shipped : Model.t := {|
  Model.name := "Shipped";
  Model.call := λ kwargs,
    match kwargs !! "trackingId" with
    | Some (VStr s) => Return (VObj "Shipped" {[ "trackingId" := VStr s ]})
    | _ => Raise (Foreign "ValidationError" (VStr "trackingId: field required"))
    end;
  Model.schema :=
    Return (VDict {[ "title" := VStr "Shipped"; "type" := VStr "object";
                     "required" := VList [VStr "trackingId"] ]})
|}.

(** [inspect.Parameter.empty], the annotation of a parameter declared
    without one: a class that takes no arguments and has no [schema]. *)
Definition Unannotated : Model.t := {|
  Model.name := "_empty";
  Model.call := λ kwargs,
    if decide (kwargs = ∅) then Return (VObj "_empty" ∅)
    else Raise (TypeError "_empty() takes no arguments");
  Model.schema :=
    Raise (Foreign "AttributeError"
             (VStr "type object '_empty' has no attribute 'schema'"))
|}.

Definition msg_param : Func.Param :=
  {| Func.param_name := "msg"; Func.annotation := TextMessage |}.

(** [def on_message(msg: TextMessage): return msg.text] *)
Definition on_message : Func.t := {|
  Func.qualname := "on_message";
  Func.parameters := [msg_param];
  Func.call := λ arg,
    match arg with
    | VObj _ fields => Return (default VNone (fields !! "text"))
    | _ => Raise (Foreign "AttributeError" (VStr "text"))
    end
|}.

(** [def on_message_again(msg: TextMessage): return True] *)
Definition on_message_again : Func.t := {|
  Func.qualname := "on_message_again";
  Func.parameters := [msg_param];
  Func.call := λ _, Return (VBool true)
|}.

(** [def no_params(): return None] *)
Definition no_params : Func.t := {|
  Func.qualname := "no_params";
  Func.parameters := [];
  Func.call := λ _, Raise (TypeError "no_params() takes 0 positional arguments but 1 was given")
|}.

(** [def two_params(msg: TextMessage, extra: TextMessage): return None] *)
Definition two_params : Func.t := {|
  Func.qualname := "two_params";
  Func.parameters :=
    [msg_param; {| Func.param_name := "extra"; Func.annotation := TextMessage |}];
  Func.call := λ _, Raise (TypeError "two_params() missing 1 required positional argument: 'extra'")
|}.

Definition hi : value := VDict {[ "text" := VStr "hi" ]}.
Definition empty_payload : value := VDict ∅.

(** The raw messages of the end-to-end scenarios, and a decoder that knows
    them (anything else is malformed). *)
Definition dq : string := String (Ascii.ascii_of_nat 34) EmptyString.
Definition quoted (s : string) : string := dq +:+ s +:+ dq.
Definition envelope (channel event data : string) : string :=
  "{" +:+ quoted "channel" +:+ ":" +:+ quoted channel +:+ ","
      +:+ quoted "event" +:+ ":" +:+ quoted event +:+ ","
      +:+ quoted "data" +:+ ":" +:+ data +:+ "}".
Definition chat_hi : string :=
  envelope "chat" "message" ("{" +:+ quoted "text" +:+ ":" +:+ quoted "hi" +:+ "}").
Definition chat_empty : string := envelope "chat" "message" "{}".
Definition chat_unknown : string := envelope "chat" "unknown" "{}".

Definition decode_sample : string → outcome Event.t := λ message,
  if String.eqb message chat_hi
  then Return {| Event.channel := "chat"; Event.event := "message"; Event.data := hi |}
  else if String.eqb message chat_empty
  then Return {| Event.channel := "chat"; Event.event := "message"; Event.data := empty_payload |}
  else if String.eqb message chat_unknown
  then Return {| Event.channel := "chat"; Event.event := "unknown"; Event.data := empty_payload |}
  else Raise (Foreign "ValidationError" (VStr "Event")).

(** The router, channel and application of the end-to-end scenarios:
    [on_message] registered for event ["message"] of channel ["chat"]. *)
Definition chat_sub : Subscription.t := {|
  Subscription.func := on_message;
  Subscription.signature := [msg_param];
  Subscription.model := TextMessage
|}.
Definition chat_channel : Channel.t := {|
  Channel.publishers := ∅;
  Channel.subscribers := {[ "message" := chat_sub ]}
|}.
Definition chat_router : ChannelRouter.t :=
  (ChannelRouter.register_subscription "chat" "message" on_message
     ChannelRouter.init []).1.2.
Definition chat_app : Application.t :=
  (Application.register_subscription "chat" "message" on_message
     Application.init []).1.2.

(** [def on_anything(msg): return None], a handler of one parameter without
    annotation, and the application that has it for event ["raw"] of
    channel ["chat"]. *)
Definition on_anything : Func.t := {|
  Func.qualname := "on_anything";
  Func.parameters :=
    [{| Func.param_name := "msg"; Func.annotation := Unannotated |}];
  Func.call := λ _, Return VNone
|}.
Definition untyped_app : Application.t :=
  (Application.register_subscription "chat" "raw" on_anything
     Application.init []).1.2.
End Samples.

(** ** Reading documents and logs *)

(** [d[key]] on an exported document, [None] when there is no such key. *)
Definition getitem (d : value) (key : string) : option value :=
  match d with
  | VDict entries => entries !! key
  | _ => None
  end.

(** The text of the warning of [Channel.register_subscription]. *)
Definition overwrite_warning (event_name : string) : effect :=
  Warned ("overwriting existing subscription for " +:+ event_name).

(** ** Repeating a call *)

(** [n] consecutive calls of the same method, collecting what they return;
    the first exception ends the run. *)
Fixpoint repeat_call {S A} (n : nat) (m : M S A) : M S (list A) :=
  match n with
  | O => mret []
  | S n' => a ← m; rest ← repeat_call n' m; mret (a :: rest)
  end.

(** ** Sessions against the top-level API *)

(** The public methods of [Application], and those of the [ChannelRouter]
    it owns ([app.router]), as calls a client can make.  A [subscribe] call
    stands for applying the decorator it returns to [func]. *)
Inductive api_call : Type :=
| CallRegisterSubscription (channel name : string) (func : Func.t)
| CallSubscribe (channel_name event_name : string) (func : Func.t)
| CallProcess (message : string)
| CallSchema
| CallRouterRegisterSubscription (channel_name event_name : string) (func : Func.t)
| CallRouterSubscribe (channel_name event_name : string) (func : Func.t)
| CallRouterProcess (channel_name event_name : string) (data : value)
| CallRouterSchema.

Section Session.
Context `{Decoder}.

Definition perform (c : api_call) : M Application.t unit :=
  match c with
  | CallRegisterSubscription channel name func =>
      Application.register_subscription channel name func;; mret tt
  | CallSubscribe channel_name event_name func =>
      Application.subscribe channel_name event_name func;; mret tt
  | CallProcess message =>
      Application.process message;; mret tt
  | CallSchema =>
      reads Application.schema;; mret tt
  | CallRouterRegisterSubscription channel_name event_name func =>
      Application.on_router
        (ChannelRouter.register_subscription channel_name event_name func);;
      mret tt
  | CallRouterSubscribe channel_name event_name func =>
      Application.on_router (ChannelRouter.subscribe channel_name event_name func);;
      mret tt
  | CallRouterProcess channel_name event_name data =>
      Application.on_router (ChannelRouter.process channel_name event_name data);;
      mret tt
  | CallRouterSchema =>
      Application.on_router (reads ChannelRouter.schema);; mret tt
  end.

(** A client making the calls one after the other, catching whatever a call
    raises and going on with the next one. *)
Fixpoint session (calls : list api_call) (self : Application.t)
    (log : list effect) : Application.t * list effect :=
  match calls with
  | [] => (self, log)
  | c :: calls' =>
      let '(_, self', log') := perform c self log in
      session calls' self' log'
  end.
End Session.

(** ** Auxiliary notions for the statements *)

(** The log after the membership test of [Channel.register_subscription]. *)
Definition log_after_check (ch : Channel.t) (event_name : string)
    (log : list effect) : list effect :=
  match Channel.subscribers ch !! event_name with
  | Some _ => log ++ [overwrite_warning event_name]
  | None => log
  end.

(** A (channel, event) pair nothing is registered for: the channel is
    unknown, or it is known and has no subscription for the event. *)
Definition unroutable (router : ChannelRouter.t)
    (channel_name event_name : string) : Prop :=
  ChannelRouter.channels router !! channel_name = None ∨
  ∃ ch, ChannelRouter.channels router !! channel_name = Some ch ∧
        Channel.subscribers ch !! event_name = None.

(** A shape whose [schema()] returns. *)
Definition describable (m : Model.t) : Prop :=
  ∃ s, Model.schema m = Return s.

(** The shapes of all subscriptions and publish descriptors of the channel
    are describable. *)
Definition channel_describable (ch : Channel.t) : Prop :=
  (∀ event_name sub,
     Channel.subscribers ch !! event_name = Some sub →
     describable (Subscription.model sub)) ∧
  (∀ event_name pub,
     Channel.publishers ch !! event_name = Some pub →
     describable (Publish.model pub)).

Definition router_describable (router : ChannelRouter.t) : Prop :=
  ∀ channel_name ch,
    ChannelRouter.channels router !! channel_name = Some ch →
    channel_describable ch.

(** The channel holds a shape whose [schema()] raises [err]. *)
Definition channel_raises (ch : Channel.t) (err : exn) : Prop :=
  (∃ event_name sub,
     Channel.subscribers ch !! event_name = Some sub ∧
     Model.schema (Subscription.model sub) = Raise err) ∨
  (∃ event_name pub,
     Channel.publishers ch !! event_name = Some pub ∧
     Model.schema (Publish.model pub) = Raise err).

Definition router_raises (router : ChannelRouter.t) (err : exn) : Prop :=
  ∃ channel_name ch,
    ChannelRouter.channels router !! channel_name = Some ch ∧
    channel_raises ch err.

(** What [schema()] of a shape returns ([None] stands in when it raises,
    which the statements exclude wherever they use this). *)
Definition described (m : Model.t) : value :=
  match Model.schema m with
  | Return s => s
  | Raise _ => VNone
  end.

(** [{"payload": <the shape's schema>}] *)
Definition payload_wrapper (m : Model.t) : value :=
  VDict {[ "payload" := described m ]}.

(** The document of one channel whose shapes are describable: its
    ["publish"] entry describes the subscriptions and its ["subscribe"]
    entry the publish descriptors; an entry is there only when its registry
    is not empty. *)
Definition channel_document (ch : Channel.t) : gmap string value :=
  (if decide (Channel.subscribers ch = ∅) then ∅
   else {[ "publish" :=
             VDict ((λ sub, payload_wrapper (Subscription.model sub))
                    <$> Channel.subscribers ch) ]})
  ∪
  (if decide (Channel.publishers ch = ∅) then ∅
   else {[ "subscribe" :=
             VDict ((λ pub, payload_wrapper (Publish.model pub))
                    <$> Channel.publishers ch) ]}).

(** No channel of the router holds a publish descriptor. *)
Definition router_no_publish (router : ChannelRouter.t) : Prop :=
  map_Forall (λ _ ch, Channel.publishers ch = ∅) (ChannelRouter.channels router).

(** ** Observing a call *)

(** What a caller sees of a call: whether it returned or raised, and the
    log afterwards. *)
Definition observe {S A} (m : M S A) (self : S) (log : list effect)
    : outcome A * list effect :=
  let '(r, _, log') := m self log in (r, log').

(** The receiver after a call. *)
Definition state_after {S A} (m : M S A) (self : S) (log : list effect) : S :=
  (m self log).1.2.

(** A subscription as [Subscription.__init__] builds it: the handler's
    signature has one parameter, whose annotation is the payload shape. *)
Definition built_by_init (sub : Subscription.t) : Prop :=
  Subscription.signature sub = Func.parameters (Subscription.func sub) ∧
  ∃ p, Subscription.signature sub = [p] ∧
       Subscription.model sub = Func.annotation p.

(** The subscription registered for a (channel, event) pair, if any. *)
Definition registered (router : ChannelRouter.t)
    (channel_name event_name : string) : option Subscription.t :=
  ch ← ChannelRouter.channels router !! channel_name;
  Channel.subscribers ch !! event_name.

(** Every subscription registered in the router is one built by
    [Subscription.__init__]. *)
Definition router_subscriptions_built (router : ChannelRouter.t) : Prop :=
  ∀ channel_name event_name sub,
    registered router channel_name event_name = Some sub →
    built_by_init sub.

(** [after] knows every channel and every subscribed (channel, event) pair
    that [before] knows. *)
Definition router_extends (before after : ChannelRouter.t) : Prop :=
  (∀ channel_name,
     is_Some (ChannelRouter.channels before !! channel_name) →
     is_Some (ChannelRouter.channels after !! channel_name)) ∧
  (∀ channel_name event_name,
     is_Some (registered before channel_name event_name) →
     is_Some (registered after channel_name event_name)).

(** [d[k1][k2]...[kn]] on an exported document, [None] when a key is
    missing on the way. *)
Fixpoint getpath (d : value) (path : list string) : option value :=
  match path with
  | [] => Some d
  | key :: path' =>
      match getitem d key with
      | Some d' => getpath d' path'
      | None => None
      end
  end.

(** Expose the state passing under [≫=] and [mret]. *)
Ltac run_M := unfold mbind, M_bind, mret, M_ret; cbn.

(** * Properties *)

Import Samples.

(** ** Running the monad *)

Lemma run_bind {S A B} (m : M S A) (k : A → M S B) self log :
  (m ≫= k) self log =
  match m self log with
  | (Return a, self', log') => k a self' log'
  | (Raise e, self', log') => (Raise e, self', log')
  end.
Proof. reflexivity. Qed.

(** ** Subscription *)

Lemma Subscription_init_one func p :
  Func.parameters func = [p] →
  Subscription.init func =
  Return {| Subscription.func := func; Subscription.signature := [p];
            Subscription.model := Func.annotation p |}.
Proof. intros Hp. unfold Subscription.init. rewrite Hp. reflexivity. Qed.

Lemma Subscription_init_bad func :
  length (Func.parameters func) ≠ 1 →
  Subscription.init func = Raise Exception_.
Proof.
  intros Hlen. unfold Subscription.init.
  destruct (decide (length (Func.parameters func) ≠ 1)); [reflexivity | contradiction].
Qed.

(** What [Subscription.process] does, case by case; the subscription itself
    is never modified. *)
Lemma Subscription_process_run data sub log :
  Subscription.process data sub log =
  match data with
  | VDict kwargs =>
      match Model.call (Subscription.model sub) kwargs with
      | Return validated =>
          (Func.call (Subscription.func sub) validated, sub,
           log ++ [Invoked (Subscription.func sub) validated])
      | Raise e => (Raise e, sub, log)
      end
  | _ => (Raise (TypeError "argument after ** must be a mapping"), sub, log)
  end.
Proof.
  unfold Subscription.process. rewrite run_bind. cbn.
  destruct data; reflexivity.
Qed.

Lemma Subscription_process_self data sub log :
  (Subscription.process data sub log).1.2 = sub.
Proof.
  rewrite Subscription_process_run.
  destruct data; try reflexivity.
  destruct (Model.call (Subscription.model sub) d); reflexivity.
Qed.

(** ** Channel *)

Lemma Channel_set_subscribers_id ch :
  Channel.set_subscribers (Channel.subscribers ch) ch = ch.
Proof. destruct ch; reflexivity. Qed.

Lemma Channel_process_run event_name data ch log :
  Channel.process event_name data ch log =
  match Channel.subscribers ch !! event_name with
  | Some sub =>
      let '(r, _, log') := Subscription.process data sub log in (r, ch, log')
  | None => (Return VNone, ch, log)
  end.
Proof.
  unfold Channel.process. rewrite run_bind. cbn.
  destruct (Channel.subscribers ch !! event_name) as [sub|] eqn:Hsub; cbn.
  - unfold on_item. rewrite Hsub.
    pose proof (Subscription_process_self data sub log) as Hself.
    destruct (Subscription.process data sub log) as [[r sub'] log']. cbn in Hself. subst sub'.
    rewrite (insert_id _ _ _ Hsub), Channel_set_subscribers_id. reflexivity.
  - reflexivity.
Qed.

(** ** ChannelRouter *)

Lemma ChannelRouter_set_channels_id router :
  ChannelRouter.set_channels (ChannelRouter.channels router) router = router.
Proof. destruct router; reflexivity. Qed.

Lemma ChannelRouter_process_run channel_name event_name data router log :
  ChannelRouter.process channel_name event_name data router log =
  match ChannelRouter.channels router !! channel_name with
  | Some ch =>
      let '(r, _, log') := Channel.process event_name data ch log in (r, router, log')
  | None => (Return VNone, router, log)
  end.
Proof.
  unfold ChannelRouter.process. rewrite run_bind. cbn.
  destruct (ChannelRouter.channels router !! channel_name) as [ch|] eqn:Hch; cbn.
  - unfold on_item. rewrite Hch.
    rewrite Channel_process_run.
    destruct (Channel.subscribers ch !! event_name) as [sub|].
    + destruct (Subscription.process data sub log) as [[r sub'] log'].
      rewrite (insert_id _ _ _ Hch), ChannelRouter_set_channels_id. reflexivity.
    + rewrite (insert_id _ _ _ Hch), ChannelRouter_set_channels_id. reflexivity.
  - reflexivity.
Qed.

(** ** Registration *)

Lemma Channel_register_subscription_run event_name func ch log :
  Channel.register_subscription event_name func ch log =
  match Subscription.init func with
  | Return sub =>
      (Return VNone,
       Channel.set_subscribers (<[event_name := sub]> (Channel.subscribers ch)) ch,
       log_after_check ch event_name log)
  | Raise err => (Raise err, ch, log_after_check ch event_name log)
  end.
Proof.
  unfold Channel.register_subscription, log_after_check.
  rewrite run_bind. cbn.
  destruct (Channel.subscribers ch !! event_name); cbn;
    destruct (Subscription.init func); reflexivity.
Qed.

Lemma ChannelRouter_register_subscription_run channel_name event_name func router log :
  ChannelRouter.register_subscription channel_name event_name func router log =
  let ch := default Channel.init (ChannelRouter.channels router !! channel_name) in
  let '(r, ch', log') := Channel.register_subscription event_name func ch log in
  (r, ChannelRouter.set_channels (<[channel_name := ch']> (ChannelRouter.channels router)) router,
   log').
Proof.
  unfold ChannelRouter.register_subscription. rewrite run_bind. cbn.
  destruct (ChannelRouter.channels router !! channel_name) as [ch|] eqn:Hch; cbn.
  - run_M. unfold on_item. rewrite Hch. reflexivity.
  - run_M. unfold on_item. cbn. rewrite lookup_insert_eq.
    destruct (Channel.register_subscription event_name func Channel.init log) as [[r ch'] log'].
    rewrite insert_insert_eq. reflexivity.
Qed.

(** ** Dispatch *)

(** C1. For a registered (channel, event) pair and a raw payload that the
    subscription's shape accepts, dispatch invokes the registered handler
    exactly once, with the validated typed payload, and its outcome is the
    handler's: the log grows by that single invocation, the registries are
    unchanged, and what the handler returns is what dispatch returns. *)
Theorem dispatch_valid_payload
    (router : ChannelRouter.t) (channel_name event_name : string)
    (ch : Channel.t) (sub : Subscription.t)
    (kwargs : gmap string value) (validated : value) (log : list effect) :
  ChannelRouter.channels router !! channel_name = Some ch →
  Channel.subscribers ch !! event_name = Some sub →
  Model.call (Subscription.model sub) kwargs = Return validated →
  ChannelRouter.process channel_name event_name (VDict kwargs) router log =
  (Func.call (Subscription.func sub) validated, router,
   log ++ [Invoked (Subscription.func sub) validated]).
Proof.
  intros Hch Hsub Hvalid.
  rewrite ChannelRouter_process_run, Hch, Channel_process_run, Hsub.
  rewrite Subscription_process_run, Hvalid. reflexivity.
Qed.

Lemma dispatch_valid_payload_witness :
  ChannelRouter.process "chat" "message" hi chat_router [] =
  (Return (VStr "hi"), chat_router,
   [Invoked on_message (VObj "TextMessage" {[ "text" := VStr "hi" ]})]).
Proof.
  exact (dispatch_valid_payload chat_router "chat" "message" chat_channel
           chat_sub {[ "text" := VStr "hi" ]}
           (VObj "TextMessage" {[ "text" := VStr "hi" ]}) []
           eq_refl eq_refl eq_refl).
Defined.

(** C2. For a registered (channel, event) pair and a raw payload that the
    subscription's shape rejects, dispatch raises the very error of the
    validation engine and the handler is not invoked: log and registries are
    as before. *)
Theorem dispatch_invalid_payload
    (router : ChannelRouter.t) (channel_name event_name : string)
    (ch : Channel.t) (sub : Subscription.t)
    (kwargs : gmap string value) (err : exn) (log : list effect) :
  ChannelRouter.channels router !! channel_name = Some ch →
  Channel.subscribers ch !! event_name = Some sub →
  Model.call (Subscription.model sub) kwargs = Raise err →
  ChannelRouter.process channel_name event_name (VDict kwargs) router log =
  (Raise err, router, log).
Proof.
  intros Hch Hsub Hinvalid.
  rewrite ChannelRouter_process_run, Hch, Channel_process_run, Hsub.
  rewrite Subscription_process_run, Hinvalid. reflexivity.
Qed.

Lemma dispatch_invalid_payload_witness :
  ChannelRouter.process "chat" "message" empty_payload chat_router [] =
  (Raise (Foreign "ValidationError" (VStr "text: field required")), chat_router, []).
Proof.
  apply (dispatch_invalid_payload chat_router "chat" "message" chat_channel
           chat_sub ∅ (Foreign "ValidationError" (VStr "text: field required")) []);
    reflexivity.
Defined.

Lemma dispatch_unroutable_once router channel_name event_name data log :
  unroutable router channel_name event_name →
  ChannelRouter.process channel_name event_name data router log =
  (Return VNone, router, log).
Proof.
  intros [Hnone | (ch & Hch & Hsub)]; rewrite ChannelRouter_process_run.
  - rewrite Hnone. reflexivity.
  - rewrite Hch, Channel_process_run, Hsub. reflexivity.
Qed.

(** C3. Dispatch for an unknown channel, or for a known channel and an event
    without subscription, returns [None] and raises nothing; any number of
    such calls in a row return [None] each, and leave the registries and the
    log as they were. *)
Theorem dispatch_unroutable_noop
    (router : ChannelRouter.t) (channel_name event_name : string)
    (data : value) (log : list effect) (n : nat) :
  unroutable router channel_name event_name →
  repeat_call n (ChannelRouter.process channel_name event_name data) router log =
  (Return (replicate n VNone), router, log).
Proof.
  intros Hun. induction n as [|n IH]; [reflexivity|].
  cbn [repeat_call]. rewrite run_bind, dispatch_unroutable_once by assumption.
  rewrite run_bind, IH. reflexivity.
Qed.

Lemma dispatch_unroutable_noop_witness :
  repeat_call 3 (ChannelRouter.process "chat" "unknown" empty_payload) chat_router [] =
    (Return [VNone; VNone; VNone], chat_router, []) ∧
  repeat_call 2 (ChannelRouter.process "orders" "message" hi) chat_router [] =
    (Return [VNone; VNone], chat_router, []).
Proof.
  split.
  - apply (dispatch_unroutable_noop chat_router "chat" "unknown" empty_payload [] 3).
    right. exists chat_channel. split; reflexivity.
  - apply (dispatch_unroutable_noop chat_router "orders" "message" hi [] 2).
    left. reflexivity.
Defined.

(** ** Registration of handlers *)

(** C4. A handler that declares no parameter, or two or more, cannot be
    registered: [Channel.register_subscription] raises the signature error
    right away and the channel, so its subscription registry, is left as it
    was; a handler that declares exactly one parameter is registered, and
    the subscription stored under the event name has that parameter's
    declared type as its payload shape. *)
Theorem register_subscription_signature
    (ch : Channel.t) (event_name : string) (func : Func.t) (log : list effect) :
  (length (Func.parameters func) ≠ 1 →
   Channel.register_subscription event_name func ch log =
   (Raise Exception_, ch, log_after_check ch event_name log)) ∧
  (∀ p, Func.parameters func = [p] →
   Channel.register_subscription event_name func ch log =
   (Return VNone,
    {| Channel.publishers := Channel.publishers ch;
       Channel.subscribers :=
         <[event_name := {| Subscription.func := func;
                            Subscription.signature := [p];
                            Subscription.model := Func.annotation p |}]>
           (Channel.subscribers ch) |},
    log_after_check ch event_name log)).
Proof.
  split.
  - intros Hbad.
    rewrite Channel_register_subscription_run, Subscription_init_bad by assumption.
    reflexivity.
  - intros p Hone.
    rewrite Channel_register_subscription_run, (Subscription_init_one _ _ Hone).
    reflexivity.
Qed.

Lemma register_subscription_signature_witness :
  Channel.register_subscription "message" no_params Channel.init [] =
    (Raise Exception_, Channel.init, []) ∧
  Channel.register_subscription "other" two_params chat_channel [] =
    (Raise Exception_, chat_channel, []) ∧
  Channel.register_subscription "message" on_message Channel.init [] =
    (Return VNone, chat_channel, []).
Proof.
  split; [|split].
  - apply (proj1 (register_subscription_signature Channel.init "message" no_params [])).
    simpl. lia.
  - apply (proj1 (register_subscription_signature chat_channel "other" two_params [])).
    simpl. lia.
  - apply (proj2 (register_subscription_signature Channel.init "message" on_message [])
             msg_param).
    reflexivity.
Defined.

(** C10. When the event name already has a subscription and the new handler
    does not declare exactly one parameter, [Channel.register_subscription]
    first emits the overwrite warning and then raises the signature error;
    the channel is untouched, so the earlier subscription is still the one
    bound to the event name. *)
Theorem failed_overwrite_warns_and_keeps
    (ch : Channel.t) (event_name : string) (old : Subscription.t)
    (func : Func.t) (log : list effect) :
  Channel.subscribers ch !! event_name = Some old →
  length (Func.parameters func) ≠ 1 →
  ∃ ch',
    Channel.register_subscription event_name func ch log =
    (Raise Exception_, ch',
     log ++ [Warned ("overwriting existing subscription for " +:+ event_name)]) ∧
    ch' = ch ∧
    Channel.subscribers ch' !! event_name = Some old.
Proof.
  intros Hold Hbad. exists ch.
  rewrite Channel_register_subscription_run, Subscription_init_bad by assumption.
  unfold log_after_check. rewrite Hold. auto.
Qed.

Lemma failed_overwrite_warns_and_keeps_witness :
  ∃ ch',
    Channel.register_subscription "message" two_params chat_channel [] =
    (Raise Exception_, ch', [Warned "overwriting existing subscription for message"]) ∧
    ch' = chat_channel ∧
    Channel.subscribers ch' !! "message" = Some chat_sub.
Proof.
  apply (failed_overwrite_warns_and_keeps chat_channel "message" chat_sub two_params []).
  - reflexivity.
  - simpl. lia.
Defined.

(** C9. When the channel name is new to the router and the handler does not
    declare exactly one parameter, [ChannelRouter.register_subscription]
    raises the signature error and yet the router has changed: a channel
    with empty subscription and publish registries now sits under that
    name. *)
Theorem failed_registration_creates_channel
    (router : ChannelRouter.t) (channel_name event_name : string)
    (func : Func.t) (log : list effect) :
  ChannelRouter.channels router !! channel_name = None →
  length (Func.parameters func) ≠ 1 →
  ChannelRouter.register_subscription channel_name event_name func router log =
  (Raise Exception_,
   {| ChannelRouter.channels :=
        <[channel_name := {| Channel.publishers := ∅; Channel.subscribers := ∅ |}]>
          (ChannelRouter.channels router) |},
   log).
Proof.
  intros Hnew Hbad.
  rewrite ChannelRouter_register_subscription_run, Hnew. cbn.
  rewrite Channel_register_subscription_run, Subscription_init_bad by assumption.
  reflexivity.
Qed.

Lemma failed_registration_creates_channel_witness :
  ChannelRouter.register_subscription "orders" "created" no_params chat_router [] =
  (Raise Exception_,
   {| ChannelRouter.channels :=
        {[ "orders" := Channel.init; "chat" := chat_channel ]} |},
   []).
Proof.
  apply (failed_registration_creates_channel chat_router "orders" "created" no_params []).
  - reflexivity.
  - simpl. lia.
Defined.

Lemma ChannelRouter_register_one channel_name event_name func p router log :
  Func.parameters func = [p] →
  let ch := default Channel.init (ChannelRouter.channels router !! channel_name) in
  let sub := {| Subscription.func := func; Subscription.signature := [p];
                Subscription.model := Func.annotation p |} in
  ChannelRouter.register_subscription channel_name event_name func router log =
  (Return VNone,
   {| ChannelRouter.channels :=
        <[channel_name :=
            Channel.set_subscribers (<[event_name := sub]> (Channel.subscribers ch)) ch]>
          (ChannelRouter.channels router) |},
   log_after_check ch event_name log).
Proof.
  intros Hone ch sub.
  rewrite ChannelRouter_register_subscription_run. cbn. fold ch.
  rewrite Channel_register_subscription_run, (Subscription_init_one _ _ Hone).
  reflexivity.
Qed.

(** C5. Two registrations of the same (channel, event) pair, each with a
    handler of one parameter: both succeed, the second emits the overwrite
    warning, the channel holds as many subscriptions as after the first and
    the one under the event name is the second's.  Every later dispatch for
    the pair goes to the second handler: a payload that the second
    handler's shape accepts invokes the second handler once on the typed
    value and has its outcome, a payload that it rejects raises the
    validation error and invokes nothing, and no dispatch for the pair
    invokes anything but the second handler. *)
Theorem register_twice_last_wins
    (router : ChannelRouter.t) (channel_name event_name : string)
    (f1 f2 : Func.t) (p1 p2 : Func.Param) (log : list effect) :
  Func.parameters f1 = [p1] →
  Func.parameters f2 = [p2] →
  let sub2 := {| Subscription.func := f2; Subscription.signature := [p2];
                 Subscription.model := Func.annotation p2 |} in
  ∃ router1 log1 router2 ch1 ch2,
    ChannelRouter.register_subscription channel_name event_name f1 router log =
      (Return VNone, router1, log1) ∧
    ChannelRouter.register_subscription channel_name event_name f2 router1 log1 =
      (Return VNone, router2,
       log1 ++ [Warned ("overwriting existing subscription for " +:+ event_name)]) ∧
    ChannelRouter.channels router1 !! channel_name = Some ch1 ∧
    ChannelRouter.channels router2 !! channel_name = Some ch2 ∧
    Channel.subscribers ch2 !! event_name = Some sub2 ∧
    size (Channel.subscribers ch2) = size (Channel.subscribers ch1) ∧
    (∀ kwargs validated log',
       Model.call (Func.annotation p2) kwargs = Return validated →
       ChannelRouter.process channel_name event_name (VDict kwargs) router2 log' =
         (Func.call f2 validated, router2, log' ++ [Invoked f2 validated])) ∧
    (∀ kwargs err log',
       Model.call (Func.annotation p2) kwargs = Raise err →
       ChannelRouter.process channel_name event_name (VDict kwargs) router2 log' =
         (Raise err, router2, log')) ∧
    ∀ data log',
      ∃ r added,
        ChannelRouter.process channel_name event_name data router2 log' =
          (r, router2, log' ++ added) ∧
        (added = [] ∨
         ∃ validated, added = [Invoked f2 validated] ∧ r = Func.call f2 validated).
Proof.
  intros H1 H2 sub2.
  set (ch0 := default Channel.init (ChannelRouter.channels router !! channel_name)).
  set (sub1 := {| Subscription.func := f1; Subscription.signature := [p1];
                  Subscription.model := Func.annotation p1 |}).
  set (ch1 := Channel.set_subscribers (<[event_name := sub1]> (Channel.subscribers ch0)) ch0).
  set (ch2 := Channel.set_subscribers (<[event_name := sub2]> (Channel.subscribers ch1)) ch1).
  set (router1 := {| ChannelRouter.channels :=
                       <[channel_name := ch1]> (ChannelRouter.channels router) |}).
  set (router2 := {| ChannelRouter.channels :=
                       <[channel_name := ch2]> (ChannelRouter.channels router1) |}).
  assert (Hch1 : ChannelRouter.channels router1 !! channel_name = Some ch1)
    by apply lookup_insert_eq.
  assert (Hsub1 : Channel.subscribers ch1 !! event_name = Some sub1)
    by apply lookup_insert_eq.
  exists router1, (log_after_check ch0 event_name log), router2, ch1, ch2.
  split; [apply (ChannelRouter_register_one _ _ _ _ _ _ H1)|].
  split.
  { rewrite (ChannelRouter_register_one _ _ _ _ _ _ H2), Hch1. cbn.
    unfold log_after_check at 1. rewrite Hsub1. reflexivity. }
  split; [assumption|].
  assert (Hch2 : ChannelRouter.channels router2 !! channel_name = Some ch2)
    by apply lookup_insert_eq.
  assert (Hsub2 : Channel.subscribers ch2 !! event_name = Some sub2)
    by apply lookup_insert_eq.
  split; [assumption|]. split; [assumption|].
  split; [by apply map_size_insert_Some|].
  split.
  { intros kwargs validated log' Hvalid.
    rewrite ChannelRouter_process_run, Hch2, Channel_process_run, Hsub2.
    rewrite Subscription_process_run. cbn. rewrite Hvalid. reflexivity. }
  split.
  { intros kwargs err log' Hinvalid.
    rewrite ChannelRouter_process_run, Hch2, Channel_process_run, Hsub2.
    rewrite Subscription_process_run. cbn. rewrite Hinvalid. reflexivity. }
  intros data log'.
  rewrite ChannelRouter_process_run, Hch2, Channel_process_run, Hsub2.
  rewrite Subscription_process_run.
  destruct data as [| | | | |kwargs|];
    try (eexists _, []; rewrite app_nil_r; split; [reflexivity | by left]).
  cbn. destruct (Model.call (Func.annotation p2) kwargs) as [validated|err].
  - exists (Func.call f2 validated), [Invoked f2 validated].
    split; [reflexivity|]. right. by exists validated.
  - eexists _, []. rewrite app_nil_r. split; [reflexivity | by left].
Qed.

Lemma register_twice_last_wins_witness :
  ∃ router1 log1 router2 ch1 ch2,
    ChannelRouter.register_subscription "chat" "message" on_message
        ChannelRouter.init [] = (Return VNone, router1, log1) ∧
    ChannelRouter.register_subscription "chat" "message" on_message_again
        router1 log1 =
      (Return VNone, router2,
       log1 ++ [Warned "overwriting existing subscription for message"]) ∧
    ChannelRouter.channels router1 !! "chat" = Some ch1 ∧
    ChannelRouter.channels router2 !! "chat" = Some ch2 ∧
    Channel.subscribers ch2 !! "message" =
      Some {| Subscription.func := on_message_again;
              Subscription.signature := [msg_param];
              Subscription.model := TextMessage |} ∧
    size (Channel.subscribers ch2) = size (Channel.subscribers ch1) ∧
    (∀ kwargs validated log',
       Model.call TextMessage kwargs = Return validated →
       ChannelRouter.process "chat" "message" (VDict kwargs) router2 log' =
         (Func.call on_message_again validated, router2,
          log' ++ [Invoked on_message_again validated])) ∧
    (∀ kwargs err log',
       Model.call TextMessage kwargs = Raise err →
       ChannelRouter.process "chat" "message" (VDict kwargs) router2 log' =
         (Raise err, router2, log')) ∧
    ∀ data log',
      ∃ r added,
        ChannelRouter.process "chat" "message" data router2 log' =
          (r, router2, log' ++ added) ∧
        (added = [] ∨
         ∃ validated, added = [Invoked on_message_again validated] ∧
                      r = Func.call on_message_again validated).
Proof.
  exact (register_twice_last_wins ChannelRouter.init "chat" "message"
           on_message on_message_again msg_param msg_param [] eq_refl eq_refl).
Defined.

(** ** Schema export *)

(** A loop over the items of a dict whose body asks the item for a value
    and stores it: when it raises, an item raised that exception; when it
    returns, every item returned. *)
Lemma for_items_cases {T B} (d : gmap string T) (g : T → outcome value)
    (upd : string → value → B → B) (init : B) :
  let r := for_items d
             (λ key item acc, and_then (g item) (λ s, Return (upd key s acc)))
             init in
  (∀ e, r = Raise e → ∃ key item, d !! key = Some item ∧ g item = Raise e) ∧
  (∀ b, r = Return b → ∀ key item, d !! key = Some item → ∃ s, g item = Return s).
Proof.
  unfold for_items.
  apply (map_fold_weak_ind (λ r (m : gmap string T),
    (∀ e, r = Raise e → ∃ key item, m !! key = Some item ∧ g item = Raise e) ∧
    (∀ b, r = Return b → ∀ key item, m !! key = Some item → ∃ s, g item = Return s))).
  - split; [discriminate|]. intros b _ key item Hkey.
    rewrite lookup_empty in Hkey. discriminate.
  - intros i x m r Hi [IHraise IHreturn]. split.
    + intros e He. destruct r as [b|e']; cbn in He.
      * exists i, x. split; [apply lookup_insert_eq|].
        destruct (g x); cbn in He; congruence.
      * injection He as ->. destruct (IHraise e eq_refl) as (key & item & Hkey & Hg).
        exists key, item. split; [|exact Hg].
        rewrite lookup_insert_ne; [exact Hkey | congruence].
    + intros b' Hb' key item Hkey. destruct r as [b|e']; cbn in Hb'; [|discriminate].
      destruct (decide (i = key)) as [-> | Hne].
      * rewrite lookup_insert_eq in Hkey. injection Hkey as <-.
        destruct (g x) as [s|]; cbn in Hb'; [by exists s | discriminate].
      * rewrite lookup_insert_ne in Hkey by done. by apply (IHreturn b eq_refl key).
Qed.

(** When every item returns, the loop computes the fold of the stores. *)
Lemma for_items_return {T B} (d : gmap string T) (g : T → outcome value)
    (h : T → value) (upd : string → value → B → B) (init : B) :
  (∀ key item, d !! key = Some item → g item = Return (h item)) →
  for_items d (λ key item acc, and_then (g item) (λ s, Return (upd key s acc))) init =
  Return (map_fold (λ key item acc, upd key (h item) acc) init d).
Proof.
  unfold for_items. rewrite !map_fold_foldr. intros Hall.
  assert (Hlist : ∀ key item, (key, item) ∈ map_to_list d → g item = Return (h item))
    by (intros key item Hin; by apply (Hall key), elem_of_map_to_list).
  clear Hall. revert Hlist. generalize (map_to_list d). intros l.
  induction l as [|[key item] l IH]; intros Hlist; [reflexivity|].
  cbn. rewrite IH by (intros k it Hin; apply (Hlist k it); by right). cbn.
  rewrite (Hlist key item) by left. reflexivity.
Qed.

(** The two loops of [Channel.schema], once every shape has returned its
    schema, are folds of one shape: every entry of a registry is written
    under the same top-level key of the defaultdict.  The key is created by
    the first write, so it is absent after a loop over an empty registry. *)
Lemma fold_defaultdict_setitem2 {T} (key : string) (f : T → value)
    (registry : gmap string T) (out : gmap string (gmap string value)) :
  map_fold (λ event_name x acc, defaultdict_setitem2 key event_name (f x) acc)
           out registry =
  if decide (registry = ∅) then out
  else <[key := (f <$> registry) ∪ default ∅ (out !! key)]> out.
Proof.
  set (closed := λ m : gmap string T,
         if decide (m = ∅) then out
         else <[key := (f <$> m) ∪ default ∅ (out !! key)]> out).
  change (map_fold (λ event_name x acc,
                      defaultdict_setitem2 key event_name (f x) acc) out registry
          = closed registry).
  apply (map_fold_weak_ind (λ r m, r = closed m)); unfold closed.
  - rewrite decide_True by reflexivity. reflexivity.
  - intros i x m r Hi ->.
    rewrite (decide_False (P := <[i:=x]> m = ∅)) by apply insert_non_empty.
    unfold defaultdict_setitem2. rewrite fmap_insert, <- insert_union_l.
    destruct (decide (m = ∅)) as [-> | Hne].
    + rewrite fmap_empty, (left_id_L ∅ (∪)). reflexivity.
    + rewrite lookup_insert_eq, insert_insert_eq. reflexivity.
Qed.

Lemma channel_document_keys ch :
  dom (channel_document ch) ⊆ {[ "publish"; "subscribe" ]}.
Proof.
  unfold channel_document. rewrite dom_union_L.
  destruct (decide (Channel.subscribers ch = ∅));
    destruct (decide (Channel.publishers ch = ∅));
    rewrite ?dom_empty_L, ?dom_singleton_L.
  - rewrite (left_id_L ∅ (∪)). apply empty_subseteq.
  - apply union_mono_r, empty_subseteq.
  - rewrite (right_id_L ∅ (∪)). apply union_subseteq_l.
  - reflexivity.
Qed.

Lemma described_return m s : Model.schema m = Return s → described m = s.
Proof. unfold described. by intros ->. Qed.

Lemma Subscription_schema_described sub :
  describable (Subscription.model sub) →
  Subscription.schema sub = Return (payload_wrapper (Subscription.model sub)).
Proof.
  intros [s Hs]. unfold Subscription.schema, payload_wrapper.
  rewrite (described_return _ _ Hs), Hs. reflexivity.
Qed.

Lemma Publish_schema_described pub :
  describable (Publish.model pub) →
  Publish.schema pub = Return (payload_wrapper (Publish.model pub)).
Proof.
  intros [s Hs]. unfold Publish.schema, payload_wrapper.
  rewrite (described_return _ _ Hs), Hs. reflexivity.
Qed.

Lemma Subscription_schema_inv sub :
  (∀ e, Subscription.schema sub = Raise e →
        Model.schema (Subscription.model sub) = Raise e) ∧
  (∀ s, Subscription.schema sub = Return s → describable (Subscription.model sub)).
Proof.
  unfold Subscription.schema, describable.
  destruct (Model.schema (Subscription.model sub)) as [s|e]; cbn;
    split; intros; try discriminate; eauto.
Qed.

Lemma Publish_schema_inv pub :
  (∀ e, Publish.schema pub = Raise e → Model.schema (Publish.model pub) = Raise e) ∧
  (∀ s, Publish.schema pub = Return s → describable (Publish.model pub)).
Proof.
  unfold Publish.schema, describable.
  destruct (Model.schema (Publish.model pub)) as [s|e]; cbn;
    split; intros; try discriminate; eauto.
Qed.

(** [Channel.schema] returns the channel's document when all its shapes are
    describable. *)
Lemma Channel_schema_document ch :
  channel_describable ch →
  Channel.schema ch = Return (VDict (channel_document ch)).
Proof.
  intros [Hsubs Hpubs]. unfold Channel.schema. cbn zeta.
  rewrite (for_items_return _ Subscription.schema
             (λ sub, payload_wrapper (Subscription.model sub)))
    by (intros e sub Hsub; apply Subscription_schema_described; by apply (Hsubs e)).
  cbn [and_then].
  rewrite (for_items_return _ Publish.schema
             (λ pub, payload_wrapper (Publish.model pub)))
    by (intros e pub Hpub; apply Publish_schema_described; by apply (Hpubs e)).
  cbn [and_then]. do 2 f_equal.
  rewrite !fold_defaultdict_setitem2. unfold channel_document.
  destruct (decide (Channel.subscribers ch = ∅)) as [Hs | Hs];
    destruct (decide (Channel.publishers ch = ∅)) as [Hp | Hp].
  - rewrite fmap_empty, (left_id_L ∅ (∪)). reflexivity.
  - rewrite lookup_empty. cbn. rewrite (right_id_L ∅ (∪)), (left_id_L ∅ (∪)).
    rewrite insert_empty, map_fmap_singleton. reflexivity.
  - rewrite (right_id_L ∅ (∪)), lookup_empty. cbn.
    rewrite (right_id_L ∅ (∪)), insert_empty, map_fmap_singleton. reflexivity.
  - rewrite lookup_empty. cbn. rewrite (right_id_L ∅ (∪)), insert_empty.
    rewrite lookup_singleton_ne by discriminate. cbn.
    rewrite (right_id_L ∅ (∪)), fmap_insert, map_fmap_singleton.
    apply map_eq. intros k.
    destruct (decide (k = "subscribe")) as [-> | Hk].
    + rewrite lookup_insert_eq, lookup_union_r by (by apply lookup_singleton_ne).
      by rewrite lookup_singleton_eq.
    + rewrite lookup_insert_ne by congruence.
      rewrite lookup_union_l by (by apply lookup_singleton_ne).
      reflexivity.
Qed.

(** [Channel.schema] raises only what a shape of the channel raised, and
    returns only when all its shapes are describable. *)
Lemma Channel_schema_inv ch :
  (∀ e, Channel.schema ch = Raise e → channel_raises ch e) ∧
  (∀ d, Channel.schema ch = Return d → channel_describable ch).
Proof.
  unfold Channel.schema. cbn zeta.
  pose proof (for_items_cases (Channel.subscribers ch) Subscription.schema
                (defaultdict_setitem2 "publish") ∅) as [Hsraise Hsreturn].
  cbn zeta in *.
  destruct (for_items (Channel.subscribers ch) _ ∅) as [out1|e1]; cbn [and_then].
  - pose proof (for_items_cases (Channel.publishers ch) Publish.schema
                  (defaultdict_setitem2 "subscribe") out1) as [Hpraise Hpreturn].
    cbn zeta in *.
    destruct (for_items (Channel.publishers ch) _ out1) as [out2|e2]; cbn [and_then].
    + split; [discriminate|]. intros d _. split.
      * intros e sub Hsub.
        destruct (Hsreturn out1 eq_refl e sub Hsub) as [s Hs].
        by apply (proj2 (Subscription_schema_inv sub) s).
      * intros e pub Hpub.
        destruct (Hpreturn out2 eq_refl e pub Hpub) as [s Hs].
        by apply (proj2 (Publish_schema_inv pub) s).
    + split; [|discriminate]. intros e [= <-].
      destruct (Hpraise e2 eq_refl) as (k & pub & Hpub & Hraise).
      right. exists k, pub. split; [exact Hpub|].
      by apply Publish_schema_inv.
  - split; [|discriminate]. intros e [= <-].
    destruct (Hsraise e1 eq_refl) as (k & sub & Hsub & Hraise).
    left. exists k, sub. split; [exact Hsub|].
    by apply Subscription_schema_inv.
Qed.

Lemma describable_not_raises m err :
  describable m → Model.schema m = Raise err → False.
Proof. intros [s Hs] Hraise. congruence. Qed.

Lemma channel_describable_not_raises ch err :
  channel_describable ch → channel_raises ch err → False.
Proof.
  intros [Hsubs Hpubs] [(e & sub & Hsub & Hraise) | (e & pub & Hpub & Hraise)].
  - exact (describable_not_raises _ _ (Hsubs e sub Hsub) Hraise).
  - exact (describable_not_raises _ _ (Hpubs e pub Hpub) Hraise).
Qed.

Lemma fold_insert_fmap {T} (h : T → value) (m : gmap string T) :
  map_fold (λ name x (out : gmap string value), <[name := h x]> out) ∅ m = h <$> m.
Proof.
  apply (map_fold_weak_ind (λ r m, r = h <$> m)).
  - by rewrite fmap_empty.
  - intros name x m' r _ ->. by rewrite fmap_insert.
Qed.

Lemma ChannelRouter_schema_fmap router :
  router_describable router →
  ChannelRouter.schema router =
  Return (VDict ((λ ch, VDict (channel_document ch))
                 <$> ChannelRouter.channels router)).
Proof.
  intros Hall. unfold ChannelRouter.schema. cbn zeta.
  rewrite (for_items_return _ Channel.schema (λ ch, VDict (channel_document ch)))
    by (intros name ch Hch; apply Channel_schema_document; by apply (Hall name)).
  cbn [and_then]. by rewrite fold_insert_fmap.
Qed.

Lemma ChannelRouter_schema_inv router :
  (∀ e, ChannelRouter.schema router = Raise e → router_raises router e) ∧
  (∀ d, ChannelRouter.schema router = Return d → router_describable router).
Proof.
  unfold ChannelRouter.schema. cbn zeta.
  pose proof (for_items_cases (ChannelRouter.channels router) Channel.schema
                (λ name s (out : gmap string value), <[name := s]> out) ∅)
    as [Hraise Hreturn].
  cbn zeta in *.
  destruct (for_items (ChannelRouter.channels router) _ ∅) as [out|e1]; cbn [and_then].
  - split; [discriminate|]. intros d _ name ch Hch.
    destruct (Hreturn out eq_refl name ch Hch) as [s Hs].
    by apply (proj2 (Channel_schema_inv ch) s).
  - split; [|discriminate]. intros e [= <-].
    destruct (Hraise e1 eq_refl) as (name & ch & Hch & Hch_raise).
    exists name, ch. split; [exact Hch|]. by apply Channel_schema_inv.
Qed.

Lemma Application_schema_channels app :
  router_describable (Application.router app) →
  Application.schema app =
  Return (VDict {[ "asyncapi" := VStr "2.2.0";
                   "channels" := VDict ((λ ch, VDict (channel_document ch)) <$>
                                  ChannelRouter.channels (Application.router app)) ]}).
Proof.
  intros Hall. unfold Application.schema. cbn zeta.
  rewrite ChannelRouter_schema_fmap by assumption. reflexivity.
Qed.

Lemma Application_schema_inv app :
  (∀ e, Application.schema app = Raise e → router_raises (Application.router app) e) ∧
  (∀ d, Application.schema app = Return d → router_describable (Application.router app)).
Proof.
  unfold Application.schema. cbn zeta.
  destruct (ChannelRouter_schema_inv (Application.router app)) as [Hraise Hreturn].
  destruct (ChannelRouter.schema (Application.router app)) as [d|e]; cbn [and_then].
  - split; [discriminate|]. intros _ _. by apply (Hreturn d).
  - split; [|discriminate]. intros e' [= <-]. by apply Hraise.
Qed.

(** When a registered shape's [schema()] raises, the export raises, and
    what it raises is what some registered shape raised. *)
Lemma Application_schema_raises app err :
  router_raises (Application.router app) err →
  ∃ err', Application.schema app = Raise err' ∧
          router_raises (Application.router app) err'.
Proof.
  intros (name & ch & Hch & Hraise).
  destruct (Application_schema_inv app) as [Hinv_raise Hinv_return].
  destruct (Application.schema app) as [d|e].
  - destruct (channel_describable_not_raises ch err); [|exact Hraise].
    by apply (Hinv_return d eq_refl name).
  - exists e. split; [reflexivity|]. by apply Hinv_raise.
Qed.

Lemma channel_document_publish ch :
  channel_document ch !! "publish" =
  if decide (Channel.subscribers ch = ∅) then None
  else Some (VDict ((λ sub, payload_wrapper (Subscription.model sub))
                    <$> Channel.subscribers ch)).
Proof.
  unfold channel_document.
  destruct (decide (Channel.subscribers ch = ∅));
    destruct (decide (Channel.publishers ch = ∅));
    rewrite ?(left_id_L ∅ (∪)), ?(right_id_L ∅ (∪)); reflexivity.
Qed.

Lemma channel_document_subscribe ch :
  channel_document ch !! "subscribe" =
  if decide (Channel.publishers ch = ∅) then None
  else Some (VDict ((λ pub, payload_wrapper (Publish.model pub))
                    <$> Channel.publishers ch)).
Proof.
  unfold channel_document.
  destruct (decide (Channel.subscribers ch = ∅));
    destruct (decide (Channel.publishers ch = ∅));
    rewrite ?(left_id_L ∅ (∪)), ?(right_id_L ∅ (∪)); reflexivity.
Qed.

(** C6 (as the code has it). When the [schema()] of every registered shape
    returns, the exported document has the two top-level keys ["asyncapi"],
    the fixed version string, and ["channels"], with one entry per
    registered channel.  A channel's entry has no key besides ["publish"]
    and ["subscribe"]; ["publish"] is there exactly when the channel has a
    subscription and then maps every subscribed event name to the payload
    wrapper of its shape's schema; ["subscribe"] is there exactly when the
    channel has a publish descriptor and then maps every such event name to
    the payload wrapper of its shape's schema.  When the [schema()] of some
    registered shape raises, the export raises, and raises what some
    registered shape raised. *)
Theorem schema_export (app : Application.t) :
  (router_describable (Application.router app) →
   ∃ chans : gmap string value,
     Application.schema app =
       Return (VDict {[ "asyncapi" := VStr "2.2.0"; "channels" := VDict chans ]}) ∧
     dom chans = dom (ChannelRouter.channels (Application.router app)) ∧
     ∀ name ch,
       ChannelRouter.channels (Application.router app) !! name = Some ch →
       ∃ doc : gmap string value,
         chans !! name = Some (VDict doc) ∧
         dom doc ⊆ {[ "publish"; "subscribe" ]} ∧
         doc !! "publish" =
           (if decide (Channel.subscribers ch = ∅) then None
            else Some (VDict ((λ sub, VDict {[ "payload" :=
                                 described (Subscription.model sub) ]})
                              <$> Channel.subscribers ch))) ∧
         doc !! "subscribe" =
           (if decide (Channel.publishers ch = ∅) then None
            else Some (VDict ((λ pub, VDict {[ "payload" :=
                                 described (Publish.model pub) ]})
                              <$> Channel.publishers ch)))) ∧
  (∀ err,
     router_raises (Application.router app) err →
     ∃ err', Application.schema app = Raise err' ∧
             router_raises (Application.router app) err').
Proof.
  split; [|apply Application_schema_raises].
  intros Hall.
  exists ((λ ch, VDict (channel_document ch))
          <$> ChannelRouter.channels (Application.router app)).
  split; [by apply Application_schema_channels|].
  split; [apply dom_fmap_L|].
  intros name ch Hch. exists (channel_document ch).
  rewrite lookup_fmap, Hch. split; [reflexivity|].
  split; [apply channel_document_keys|].
  split; [apply channel_document_publish | apply channel_document_subscribe].
Qed.

Lemma schema_export_witness :
  (∃ chans doc : gmap string value,
     Application.schema chat_app =
       Return (VDict {[ "asyncapi" := VStr "2.2.0"; "channels" := VDict chans ]}) ∧
     chans !! "chat" = Some (VDict doc) ∧
     doc !! "publish" =
       Some (VDict {[ "message" := VDict {[ "payload" := described TextMessage ]} ]}) ∧
     doc !! "subscribe" = None) ∧
  (∃ err', Application.schema untyped_app = Raise err' ∧
           router_raises (Application.router untyped_app) err').
Proof.
  split.
  - assert (Hall : router_describable (Application.router chat_app)).
    { eapply (proj2 (Application_schema_inv chat_app)). reflexivity. }
    destruct (proj1 (schema_export chat_app) Hall) as (chans & Hdoc & _ & Hchannels).
    destruct (Hchannels "chat" chat_channel eq_refl)
      as (doc & Hchat & _ & Hpublish & Hsubscribe).
    exists chans, doc. split; [exact Hdoc|]. split; [exact Hchat|].
    split; [exact Hpublish | exact Hsubscribe].
  - apply (proj2 (schema_export untyped_app)
             (Foreign "AttributeError"
                (VStr "type object '_empty' has no attribute 'schema'"))).
    eexists "chat", _. split; [reflexivity|].
    left. eexists "raw", _. split; reflexivity.
Defined.

(** Counterexamples to C6 as the specification words it (a mapping, with
    two keys for every channel, in every state): a channel with a
    subscription and no publish descriptor is exported with the single key
    ["publish"]; and with a handler whose parameter has no annotation
    registered, the export raises. *)
Lemma schema_channel_single_key :
  Application.schema Samples.chat_app =
    Return (VDict {[ "asyncapi" := VStr "2.2.0";
                     "channels" := VDict {[ "chat" := VDict {[ "publish" :=
                        VDict {[ "message" := VDict {[ "payload" :=
                           described Samples.TextMessage ]} ]} ]} ]} ]}) ∧
  (∀ p s, Channel.schema Samples.chat_channel ≠
          Return (VDict {[ "publish" := p; "subscribe" := s ]})) ∧
  Application.schema Samples.untyped_app =
    Raise (Foreign "AttributeError"
             (VStr "type object '_empty' has no attribute 'schema'")).
Proof.
  split; [reflexivity|]. split; [|reflexivity].
  intros p s Heq.
  assert (Hnone : match Channel.schema Samples.chat_channel with
                  | Return d => getitem d "subscribe"
                  | Raise _ => None
                  end = None) by reflexivity.
  rewrite Heq in Hnone. cbn in Hnone.
  rewrite lookup_insert_ne, lookup_singleton_eq in Hnone by discriminate.
  discriminate.
Qed.

(** ** The top-level API *)

Lemma Application_set_router_id app :
  Application.set_router (Application.router app) app = app.
Proof. destruct app; reflexivity. Qed.

Lemma ChannelRouter_process_self channel_name event_name data router log :
  (ChannelRouter.process channel_name event_name data router log).1.2 = router.
Proof.
  rewrite ChannelRouter_process_run.
  destruct (ChannelRouter.channels router !! channel_name) as [ch|]; [|reflexivity].
  destruct (Channel.process event_name data ch log) as [[r ch'] log']. reflexivity.
Qed.

(** C8. A raw message that the decoder rejects makes [Application.process]
    raise the decoder's error, with nothing dispatched: application and log
    are as before.  A raw message that decodes to an envelope is handed to
    the router's dispatch with the envelope's channel, event and data, and
    what that call returns or raises, and what it logs, is the result. *)
Theorem process_message
    (decoder : Decoder) (app : Application.t) (message : string)
    (log : list effect) :
  (∀ err, parse_raw message = Raise err →
     Application.process message app log = (Raise err, app, log)) ∧
  (∀ envelope r router' log',
     parse_raw message = Return envelope →
     ChannelRouter.process (Event.channel envelope) (Event.event envelope)
       (Event.data envelope) (Application.router app) log = (r, router', log') →
     Application.process message app log = (r, app, log')).
Proof.
  split.
  - intros err Hdecode. unfold Application.process.
    rewrite run_bind. unfold lift. rewrite Hdecode. reflexivity.
  - intros envelope r router' log' Hdecode Hdispatch.
    unfold Application.process. rewrite run_bind. unfold lift at 1.
    rewrite Hdecode. unfold Application.on_router.
    pose proof (ChannelRouter_process_self (Event.channel envelope)
                  (Event.event envelope) (Event.data envelope)
                  (Application.router app) log) as Hself.
    rewrite Hdispatch in Hself |- *. cbn in Hself. subst router'.
    rewrite Application_set_router_id. reflexivity.
Qed.

Lemma process_message_witness :
  @Application.process decode_sample "junk" chat_app [] =
    (Raise (Foreign "ValidationError" (VStr "Event")), chat_app, []) ∧
  @Application.process decode_sample chat_hi chat_app [] =
    (Return (VStr "hi"), chat_app,
     [Invoked on_message (VObj "TextMessage" {[ "text" := VStr "hi" ]})]).
Proof.
  split.
  - apply (proj1 (process_message decode_sample chat_app "junk" [])).
    reflexivity.
  - apply (proj2 (process_message decode_sample chat_app chat_hi [])
             {| Event.channel := "chat"; Event.event := "message"; Event.data := hi |}
             (Return (VStr "hi")) (Application.router chat_app)
             [Invoked on_message (VObj "TextMessage" {[ "text" := VStr "hi" ]})]);
      reflexivity.
Defined.

Lemma Channel_register_subscription_publishers event_name func ch log :
  Channel.publishers (Channel.register_subscription event_name func ch log).1.2 =
  Channel.publishers ch.
Proof.
  rewrite Channel_register_subscription_run.
  destruct (Subscription.init func); reflexivity.
Qed.

Lemma ChannelRouter_register_subscription_no_publish
    channel_name event_name func router log :
  router_no_publish router →
  router_no_publish
    (ChannelRouter.register_subscription channel_name event_name func router log).1.2.
Proof.
  intros Hinv. rewrite ChannelRouter_register_subscription_run. cbn zeta.
  pose proof (Channel_register_subscription_publishers event_name func
    (default Channel.init (ChannelRouter.channels router !! channel_name)) log) as Hpub.
  destruct (Channel.register_subscription event_name func _ log) as [[r ch'] log'].
  cbn in *. unfold router_no_publish. cbn.
  apply map_Forall_insert_2; [|exact Hinv].
  rewrite Hpub.
  destruct (ChannelRouter.channels router !! channel_name) as [ch|] eqn:Hch; cbn.
  - exact (Hinv _ _ Hch).
  - reflexivity.
Qed.

Lemma on_router_no_publish {A} (m : M ChannelRouter.t A) app log :
  router_no_publish (m (Application.router app) log).1.2 →
  router_no_publish (Application.router (Application.on_router m app log).1.2).
Proof.
  unfold Application.on_router.
  destruct (m (Application.router app) log) as [[r router'] log']. auto.
Qed.

Lemma discard_result_self {S A B} (m : M S A) (b : B) self log :
  ((m;; mret b) self log).1.2 = (m self log).1.2.
Proof.
  rewrite run_bind. destruct (m self log) as [[[a|e] self'] log']; reflexivity.
Qed.

Lemma perform_no_publish (decoder : Decoder) c app log :
  router_no_publish (Application.router app) →
  router_no_publish (Application.router (perform c app log).1.2).
Proof.
  intros Hinv.
  assert (Hreg : ∀ channel name func,
    router_no_publish
      (ChannelRouter.register_subscription channel name func
         (Application.router app) log).1.2)
    by (intros; by apply ChannelRouter_register_subscription_no_publish).
  assert (Hproc : ∀ channel name data,
    router_no_publish
      (ChannelRouter.process channel name data (Application.router app) log).1.2)
    by (intros; by rewrite ChannelRouter_process_self).
  destruct c; cbn [perform]; rewrite discard_result_self.
  - apply on_router_no_publish, Hreg.
  - unfold Application.subscribe. rewrite discard_result_self.
    apply on_router_no_publish, Hreg.
  - unfold Application.process. rewrite run_bind. unfold lift.
    destruct (parse_raw message) as [envelope|err]; [|exact Hinv].
    apply on_router_no_publish, Hproc.
  - exact Hinv.
  - apply on_router_no_publish, Hreg.
  - apply on_router_no_publish. unfold ChannelRouter.subscribe.
    rewrite discard_result_self. apply Hreg.
  - apply on_router_no_publish, Hproc.
  - apply on_router_no_publish. exact Hinv.
Qed.

Lemma session_no_publish (decoder : Decoder) calls app log :
  router_no_publish (Application.router app) →
  router_no_publish (Application.router (session calls app log).1).
Proof.
  revert app log. induction calls as [|c calls IH]; intros app log Hinv; [exact Hinv|].
  cbn [session].
  pose proof (perform_no_publish decoder c app log Hinv) as Hstep.
  destruct (perform c app log) as [[r app'] log']. apply IH. exact Hstep.
Qed.

Lemma Channel_register_publish_run event_name shape ch log :
  Channel.register_publish event_name shape ch log =
  (Return VNone,
   {| Channel.publishers :=
        <[event_name := {| Publish.model := shape |}]> (Channel.publishers ch);
      Channel.subscribers := Channel.subscribers ch |},
   match Channel.publishers ch !! event_name with
   | Some _ => log ++ [Warned ("overwriting existing publish for " +:+ event_name)]
   | None => log
   end).
Proof.
  unfold Channel.register_publish. rewrite run_bind. cbn.
  destruct (Channel.publishers ch !! event_name); reflexivity.
Qed.

(** C7 (as the code has it). [Application] and [ChannelRouter] expose the
    registration of subscriptions and nothing for publish descriptors:
    whatever calls a client makes on a fresh [Application] and on its
    router, every channel's publish registry stays empty.  A publish
    descriptor is registered on a [Channel] object, by
    [Channel.register_publish], which stores the shape under the event name
    (with a warning when it replaces one). *)
Theorem publish_registration_on_channel_only :
  (∀ (decoder : Decoder) (calls : list api_call) name ch,
     ChannelRouter.channels
       (Application.router (session calls Application.init []).1) !! name = Some ch →
     Channel.publishers ch = ∅) ∧
  (∀ event_name shape ch log,
     Channel.register_publish event_name shape ch log =
     (Return VNone,
      {| Channel.publishers :=
           <[event_name := {| Publish.model := shape |}]> (Channel.publishers ch);
         Channel.subscribers := Channel.subscribers ch |},
      match Channel.publishers ch !! event_name with
      | Some _ => log ++ [Warned ("overwriting existing publish for " +:+ event_name)]
      | None => log
      end)).
Proof.
  split.
  - intros decoder calls name ch Hch.
    refine (session_no_publish decoder calls Application.init [] _ name ch Hch).
    apply map_Forall_empty.
  - apply Channel_register_publish_run.
Qed.

Lemma publish_registration_on_channel_only_witness :
  Channel.publishers chat_channel = ∅ ∧
  Channel.register_publish "shipped" Shipped chat_channel [] =
    (Return VNone,
     {| Channel.publishers := {[ "shipped" := {| Publish.model := Shipped |} ]};
        Channel.subscribers := {[ "message" := chat_sub ]} |},
     []).
Proof.
  split.
  - apply (proj1 publish_registration_on_channel_only decode_sample
             [CallSubscribe "chat" "message" on_message;
              CallRegisterSubscription "orders" "created" no_params;
              CallProcess chat_hi; CallSchema;
              CallRouterProcess "chat" "message" empty_payload]
             "chat" chat_channel).
    reflexivity.
  - apply (proj2 publish_registration_on_channel_only "shipped" Shipped chat_channel []).
Defined.

(** Counterexample to C7 as the specification words it (a top-level
    operation that registers publish descriptors): no sequence of calls on a
    fresh [Application] or its router leaves a publish descriptor for event
    ["shipped"] of channel ["orders"]. *)
Lemma no_register_publish_on_application :
  ¬ ∃ (decoder : Decoder) (calls : list api_call) (ch : Channel.t),
      ChannelRouter.channels
        (Application.router (session calls Application.init []).1) !! "orders" = Some ch ∧
      is_Some (Channel.publishers ch !! "shipped").
Proof.
  intros (decoder & calls & ch & Hch & [pub Hpub]).
  assert (Hempty : Channel.publishers ch = ∅).
  { refine (session_no_publish decoder calls Application.init [] _ "orders" ch Hch).
    apply map_Forall_empty. }
  rewrite Hempty, lookup_empty in Hpub. discriminate.
Qed.

(** * Further properties of the registry and of dispatch *)

(** ** Shared facts *)

(** The channel after [Channel.register_subscription], whatever the log. *)
Lemma Channel_state_after_register event_name func ch log :
  state_after (Channel.register_subscription event_name func) ch log =
  match Subscription.init func with
  | Return sub =>
      Channel.set_subscribers (<[event_name := sub]> (Channel.subscribers ch)) ch
  | Raise _ => ch
  end.
Proof.
  unfold state_after. rewrite Channel_register_subscription_run.
  destruct (Subscription.init func); reflexivity.
Qed.

(** The router after [ChannelRouter.register_subscription], whatever the
    log: the channel is looked up or created, updated, and stored back. *)
Lemma ChannelRouter_state_after_register channel_name event_name func router log :
  state_after (ChannelRouter.register_subscription channel_name event_name func)
    router log =
  ChannelRouter.set_channels
    (<[channel_name :=
         state_after (Channel.register_subscription event_name func)
           (default Channel.init (ChannelRouter.channels router !! channel_name)) log]>
       (ChannelRouter.channels router)) router.
Proof.
  unfold state_after. rewrite ChannelRouter_register_subscription_run. cbn zeta.
  destruct (Channel.register_subscription event_name func _ log) as [[r ch'] log'].
  reflexivity.
Qed.

Lemma registered_lookup router channel_name event_name :
  registered router channel_name event_name =
  match ChannelRouter.channels router !! channel_name with
  | Some ch => Channel.subscribers ch !! event_name
  | None => None
  end.
Proof.
  unfold registered. destruct (ChannelRouter.channels router !! channel_name); reflexivity.
Qed.

(** Dispatch depends on the router only through the subscription registered
    for the pair. *)
Lemma observe_dispatch channel_name event_name data router log :
  observe (ChannelRouter.process channel_name event_name data) router log =
  match registered router channel_name event_name with
  | Some sub => observe (Subscription.process data) sub log
  | None => (Return VNone, log)
  end.
Proof.
  unfold observe. rewrite ChannelRouter_process_run, registered_lookup.
  destruct (ChannelRouter.channels router !! channel_name) as [ch|]; [|reflexivity].
  rewrite Channel_process_run.
  destruct (Channel.subscribers ch !! event_name) as [sub|]; [|reflexivity].
  destruct (Subscription.process data sub log) as [[r sub'] log']. reflexivity.
Qed.

(** The subscription registered for a pair after a registration call. *)
Lemma registered_after_register channel_name event_name func router log c e :
  registered
    (state_after (ChannelRouter.register_subscription channel_name event_name func)
       router log) c e =
  match Subscription.init func with
  | Return sub =>
      if decide (c = channel_name ∧ e = event_name) then Some sub
      else registered router c e
  | Raise _ => registered router c e
  end.
Proof.
  rewrite ChannelRouter_state_after_register, Channel_state_after_register.
  rewrite !registered_lookup. cbn.
  destruct (decide (c = channel_name)) as [-> | Hc].
  - rewrite lookup_insert_eq.
    destruct (Subscription.init func) as [sub|err]; cbn.
    + destruct (decide (e = event_name)) as [-> | He].
      * rewrite decide_True by done. by rewrite lookup_insert_eq.
      * rewrite decide_False by (intros [_ ?]; done).
        rewrite lookup_insert_ne by done.
        destruct (ChannelRouter.channels router !! channel_name); reflexivity.
    + destruct (ChannelRouter.channels router !! channel_name); reflexivity.
  - rewrite lookup_insert_ne by done.
    destruct (Subscription.init func) as [sub|err]; [|reflexivity].
    rewrite decide_False by (intros [? _]; done). reflexivity.
Qed.

Lemma ChannelRouter_process_shape channel_name event_name data router log :
  ∃ r added,
    ChannelRouter.process channel_name event_name data router log =
      (r, router, log ++ added) ∧
    (added = [] ∨
     ∃ sub validated,
       registered router channel_name event_name = Some sub ∧
       added = [Invoked (Subscription.func sub) validated] ∧
       r = Func.call (Subscription.func sub) validated).
Proof.
  rewrite ChannelRouter_process_run, registered_lookup.
  destruct (ChannelRouter.channels router !! channel_name) as [ch|];
    [|exists (Return VNone), []; rewrite app_nil_r; by auto].
  rewrite Channel_process_run.
  destruct (Channel.subscribers ch !! event_name) as [sub|];
    [|exists (Return VNone), []; rewrite app_nil_r; by auto].
  rewrite Subscription_process_run.
  destruct data as [| | | | |kwargs|];
    try (eexists _, []; rewrite app_nil_r; by auto).
  destruct (Model.call (Subscription.model sub) kwargs) as [validated|err].
  - eexists _, _. split; [reflexivity|]. right. by exists sub, validated.
  - eexists _, []. rewrite app_nil_r. by auto.
Qed.

(** ** What dispatch does not do *)

Lemma Application_process_run (decoder : Decoder) message app log :
  Application.process message app log =
  match parse_raw message with
  | Return envelope =>
      Application.on_router
        (ChannelRouter.process (Event.channel envelope) (Event.event envelope)
           (Event.data envelope)) app log
  | Raise err => (Raise err, app, log)
  end.
Proof.
  unfold Application.process. rewrite run_bind. unfold lift.
  destruct (parse_raw message); reflexivity.
Qed.

(** X1. [Application.process] does nothing of its own besides at most one
    handler call.  With the decoder and the shape's validation taken as
    functions of their input, either the call returns or raises with the
    application and the log untouched (the message was not decoded or not
    routed, the payload was no mapping or was rejected), or its outcome and
    its effect are exactly those of one call of the handler registered for
    some (channel, event) pair, made on the application and the log as they
    were: the router changes no registry and emits no warning before the
    handler runs, and does nothing after it. *)
Theorem application_process_frame
    (decoder : Decoder) (app : Application.t) (message : string)
    (log : list effect) :
  (∃ r, Application.process message app log = (r, app, log)) ∨
  (∃ channel_name event_name sub validated,
     registered (Application.router app) channel_name event_name = Some sub ∧
     Application.process message app log =
       invoke (Subscription.func sub) validated app log).
Proof.
  rewrite Application_process_run.
  destruct (parse_raw message) as [envelope|err]; [|left; by eexists].
  destruct (ChannelRouter_process_shape (Event.channel envelope)
              (Event.event envelope) (Event.data envelope)
              (Application.router app) log) as (r & added & Hrun & Hadded).
  unfold Application.on_router. rewrite Hrun, Application_set_router_id.
  destruct Hadded as [-> | (sub & validated & Hsub & -> & ->)].
  - left. exists r. by rewrite app_nil_r.
  - right. exists (Event.channel envelope), (Event.event envelope), sub, validated.
    split; [exact Hsub | reflexivity].
Qed.

(** X2. A payload that is no mapping (a JSON list, string, number or null
    in the envelope's [data]) cannot be spread into keyword arguments: for a
    registered pair, dispatch raises a [TypeError] before the shape or the
    handler is called, and nothing changes. *)
Theorem dispatch_non_mapping_payload
    (router : ChannelRouter.t) (channel_name event_name : string)
    (sub : Subscription.t) (data : value) (log : list effect) :
  registered router channel_name event_name = Some sub →
  (∀ kwargs, data ≠ VDict kwargs) →
  ∃ msg,
    ChannelRouter.process channel_name event_name data router log =
    (Raise (TypeError msg), router, log).
Proof.
  intros Hsub Hdata. rewrite registered_lookup in Hsub.
  rewrite ChannelRouter_process_run.
  destruct (ChannelRouter.channels router !! channel_name) as [ch|]; [|discriminate].
  rewrite Channel_process_run, Hsub, Subscription_process_run.
  destruct data as [| | | | |kwargs|]; try (eexists; reflexivity).
  by destruct (Hdata kwargs).
Qed.

Lemma dispatch_non_mapping_payload_witness :
  ∃ msg,
    ChannelRouter.process "chat" "message" (VList [VStr "hi"]) chat_router [] =
    (Raise (TypeError msg), chat_router, []).
Proof.
  apply (dispatch_non_mapping_payload chat_router "chat" "message" chat_sub
           (VList [VStr "hi"]) []).
  - reflexivity.
  - intros kwargs. discriminate.
Defined.

(** ** Registration and dispatch together *)

(** X3. A registration that fails on the handler's signature is not seen by
    dispatch: for every (channel, event) pair and payload, dispatch on the
    router left by the failed call returns or raises, and logs, exactly
    what it does on the router before the call, also when the call has
    created the channel. *)
Theorem failed_registration_invisible_to_dispatch
    (router : ChannelRouter.t) (channel_name event_name : string)
    (func : Func.t) (log : list effect)
    (c e : string) (data : value) (log' : list effect) :
  length (Func.parameters func) ≠ 1 →
  observe (ChannelRouter.process c e data)
    (state_after (ChannelRouter.register_subscription channel_name event_name func)
       router log) log' =
  observe (ChannelRouter.process c e data) router log'.
Proof.
  intros Hbad. rewrite !observe_dispatch, registered_after_register.
  rewrite Subscription_init_bad by assumption. reflexivity.
Qed.

Lemma failed_registration_invisible_to_dispatch_witness :
  observe (ChannelRouter.process "orders" "created" hi)
    (state_after (ChannelRouter.register_subscription "orders" "created" no_params)
       chat_router []) [] =
  observe (ChannelRouter.process "orders" "created" hi) chat_router [].
Proof.
  apply (failed_registration_invisible_to_dispatch chat_router "orders" "created"
           no_params [] "orders" "created" hi []).
  simpl. lia.
Defined.

(** X4. A registration, successful or not, changes nothing for the other
    pairs: dispatch for any (channel, event) pair other than the one being
    registered returns or raises, and logs, the same before and after. *)
Theorem registration_frames_other_pairs
    (router : ChannelRouter.t) (channel_name event_name : string)
    (func : Func.t) (log : list effect)
    (c e : string) (data : value) (log' : list effect) :
  ¬ (c = channel_name ∧ e = event_name) →
  observe (ChannelRouter.process c e data)
    (state_after (ChannelRouter.register_subscription channel_name event_name func)
       router log) log' =
  observe (ChannelRouter.process c e data) router log'.
Proof.
  intros Hother. rewrite !observe_dispatch, registered_after_register.
  destruct (Subscription.init func); [|reflexivity].
  rewrite decide_False by assumption. reflexivity.
Qed.

Lemma registration_frames_other_pairs_witness :
  observe (ChannelRouter.process "chat" "message" hi)
    (state_after (ChannelRouter.register_subscription "chat" "typing" on_message_again)
       chat_router []) [] =
  observe (ChannelRouter.process "chat" "message" hi) chat_router [].
Proof.
  apply (registration_frames_other_pairs chat_router "chat" "typing"
           on_message_again [] "chat" "message" hi []).
  intros [_ Heq]. discriminate Heq.
Defined.

(** X5. Registration followed by a message, through the whole stack: once
    [Application.register_subscription] has accepted a handler of one
    parameter for a pair, a message that decodes to an envelope for that
    pair with a mapping as data is validated against the parameter's
    annotation; if that succeeds the handler is invoked once on the typed
    value and its outcome is the result, if not the validation error is the
    result and the handler is not invoked. *)
Theorem register_then_process
    (decoder : Decoder) (app : Application.t)
    (channel_name event_name : string) (func : Func.t) (p : Func.Param)
    (message : string) (kwargs : gmap string value) (log log' : list effect) :
  Func.parameters func = [p] →
  parse_raw message =
    Return {| Event.channel := channel_name; Event.event := event_name;
              Event.data := VDict kwargs |} →
  let app' :=
    state_after (Application.register_subscription channel_name event_name func)
      app log in
  Application.process message app' log' =
  match Model.call (Func.annotation p) kwargs with
  | Return validated => (Func.call func validated, app', log' ++ [Invoked func validated])
  | Raise err => (Raise err, app', log')
  end.
Proof.
  intros Hone Hdecode app'.
  unfold Application.process. rewrite run_bind. unfold lift at 1. rewrite Hdecode.
  cbn [Event.channel Event.event Event.data].
  assert (Hreg : registered (Application.router app') channel_name event_name =
                 Some {| Subscription.func := func; Subscription.signature := [p];
                         Subscription.model := Func.annotation p |}).
  { subst app'. unfold state_after, Application.register_subscription,
      Application.on_router.
    pose proof (registered_after_register channel_name event_name func
                  (Application.router app) log channel_name event_name) as Hafter.
    unfold state_after in Hafter.
    destruct (ChannelRouter.register_subscription channel_name event_name func
                (Application.router app) log) as [[r router'] log1].
    cbn in *. rewrite Hafter, (Subscription_init_one _ _ Hone).
    by rewrite decide_True. }
  pose proof (observe_dispatch channel_name event_name (VDict kwargs)
                (Application.router app') log') as Hobs.
  pose proof (ChannelRouter_process_self channel_name event_name (VDict kwargs)
                (Application.router app') log') as Hself.
  rewrite Hreg in Hobs. unfold observe in Hobs.
  rewrite Subscription_process_run in Hobs. cbn in Hobs.
  unfold Application.on_router.
  destruct (ChannelRouter.process channel_name event_name (VDict kwargs)
              (Application.router app') log') as [[r router'] log2].
  cbn in Hself. subst router'. rewrite Application_set_router_id.
  destruct (Model.call (Func.annotation p) kwargs) as [validated|err];
    injection Hobs as -> ->; reflexivity.
Qed.

Lemma register_then_process_witness :
  @Application.process decode_sample chat_hi
    (state_after (Application.register_subscription "chat" "message" on_message_again)
       chat_app []) [] =
  (Return (VBool true),
   state_after (Application.register_subscription "chat" "message" on_message_again)
     chat_app [],
   [Invoked on_message_again (VObj "TextMessage" {[ "text" := VStr "hi" ]})]).
Proof.
  exact (register_then_process decode_sample chat_app "chat" "message"
           on_message_again msg_param chat_hi {[ "text" := VStr "hi" ]} [] []
           eq_refl eq_refl).
Defined.

(** ** How registrations compose *)

(** X6. The last registration for a pair wins in the registries too: when
    the second handler is accepted, the router after two registrations for
    one (channel, event) pair is the router that the second registration
    alone would have produced, whatever the first handler was (accepted or
    rejected). *)
Theorem later_registration_erases_earlier
    (router : ChannelRouter.t) (channel_name event_name : string)
    (f1 f2 : Func.t) (p2 : Func.Param) (log log1 log2 : list effect) :
  Func.parameters f2 = [p2] →
  state_after (ChannelRouter.register_subscription channel_name event_name f2)
    (state_after (ChannelRouter.register_subscription channel_name event_name f1)
       router log) log1 =
  state_after (ChannelRouter.register_subscription channel_name event_name f2)
    router log2.
Proof.
  intros Hone.
  rewrite !ChannelRouter_state_after_register, !Channel_state_after_register.
  rewrite (Subscription_init_one _ _ Hone). cbn.
  rewrite lookup_insert_eq, insert_insert_eq. cbn.
  destruct (Subscription.init f1) as [sub1|err]; cbn.
  - by rewrite insert_insert_eq.
  - reflexivity.
Qed.

Lemma later_registration_erases_earlier_witness :
  state_after (ChannelRouter.register_subscription "chat" "message" on_message)
    (state_after (ChannelRouter.register_subscription "chat" "message" two_params)
       ChannelRouter.init []) [] =
  state_after (ChannelRouter.register_subscription "chat" "message" on_message)
    ChannelRouter.init [].
Proof.
  apply (later_registration_erases_earlier ChannelRouter.init "chat" "message"
           two_params on_message msg_param [] [] []).
  reflexivity.
Defined.

Lemma Channel_register_commute e1 e2 f1 f2 ch l1 l2 l3 l4 :
  e1 ≠ e2 →
  state_after (Channel.register_subscription e2 f2)
    (state_after (Channel.register_subscription e1 f1) ch l1) l2 =
  state_after (Channel.register_subscription e1 f1)
    (state_after (Channel.register_subscription e2 f2) ch l3) l4.
Proof.
  intros Hne. rewrite !Channel_state_after_register.
  destruct (Subscription.init f1) as [sub1|?], (Subscription.init f2) as [sub2|?];
    cbn; try reflexivity.
  unfold Channel.set_subscribers. cbn. f_equal. by apply insert_insert_ne.
Qed.

(** X7. Registrations for different (channel, event) pairs commute: the two
    orders leave the same router, whether the handlers are accepted or
    rejected, and whether or not the channels exist beforehand. *)
Theorem registrations_commute
    (router : ChannelRouter.t) (c1 e1 c2 e2 : string) (f1 f2 : Func.t)
    (l1 l2 l3 l4 : list effect) :
  ¬ (c1 = c2 ∧ e1 = e2) →
  state_after (ChannelRouter.register_subscription c2 e2 f2)
    (state_after (ChannelRouter.register_subscription c1 e1 f1) router l1) l2 =
  state_after (ChannelRouter.register_subscription c1 e1 f1)
    (state_after (ChannelRouter.register_subscription c2 e2 f2) router l3) l4.
Proof.
  intros Hpairs.
  rewrite !ChannelRouter_state_after_register. cbn.
  unfold ChannelRouter.set_channels. f_equal.
  destruct (decide (c1 = c2)) as [-> | Hc].
  - assert (He : e1 ≠ e2) by (intros ->; by apply Hpairs).
    rewrite !lookup_insert_eq, !insert_insert_eq. cbn. f_equal.
    by apply Channel_register_commute.
  - rewrite !lookup_insert_ne by done.
    rewrite (insert_insert_ne _ c2 c1) by done. f_equal.
    + rewrite !Channel_state_after_register. reflexivity.
    + f_equal. rewrite !Channel_state_after_register. reflexivity.
Qed.

Lemma registrations_commute_witness :
  state_after (ChannelRouter.register_subscription "chat" "typing" no_params)
    (state_after (ChannelRouter.register_subscription "chat" "message" on_message)
       ChannelRouter.init []) [] =
  state_after (ChannelRouter.register_subscription "chat" "message" on_message)
    (state_after (ChannelRouter.register_subscription "chat" "typing" no_params)
       ChannelRouter.init []) [].
Proof.
  apply (registrations_commute ChannelRouter.init "chat" "message" "chat" "typing"
           on_message no_params [] [] [] []).
  intros [_ Heq]. discriminate Heq.
Defined.

(** ** Registration and the exported schema *)

Lemma Application_state_after_register channel event_name func app log :
  state_after (Application.register_subscription channel event_name func) app log =
  Application.set_router
    (state_after (ChannelRouter.register_subscription channel event_name func)
       (Application.router app) log) app.
Proof.
  unfold state_after, Application.register_subscription, Application.on_router.
  destruct (ChannelRouter.register_subscription channel event_name func
              (Application.router app) log) as [[r router'] log'].
  reflexivity.
Qed.

Lemma getpath_dict (d : gmap string value) key path :
  getpath (VDict d) (key :: path) =
  match d !! key with
  | Some d' => getpath d' path
  | None => None
  end.
Proof. reflexivity. Qed.

(** Registration keeps the registries describable when it stores nothing
    or a describable shape. *)
Lemma register_describable router channel_name event_name func log :
  router_describable router →
  (∀ sub, Subscription.init func = Return sub → describable (Subscription.model sub)) →
  router_describable
    (state_after (ChannelRouter.register_subscription channel_name event_name func)
       router log).
Proof.
  intros Hall Hnew name ch.
  rewrite ChannelRouter_state_after_register, Channel_state_after_register. cbn.
  destruct (decide (channel_name = name)) as [-> | Hne].
  - rewrite lookup_insert_eq. intros [= <-].
    assert (Hold : channel_describable
                     (default Channel.init (ChannelRouter.channels router !! name))).
    { destruct (ChannelRouter.channels router !! name) as [ch0|] eqn:Hch0; cbn.
      - by apply (Hall name).
      - split; intros e x Hx; cbn in Hx; rewrite lookup_empty in Hx; discriminate. }
    destruct (Subscription.init func) as [sub|err]; [|exact Hold].
    destruct Hold as [Hsubs Hpubs]. split; [|exact Hpubs].
    intros e sub' Hsub'. cbn in Hsub'.
    destruct (decide (event_name = e)) as [-> | He].
    + rewrite lookup_insert_eq in Hsub'. injection Hsub' as <-. by apply Hnew.
    + rewrite lookup_insert_ne in Hsub' by done. by apply (Hsubs e).
  - rewrite lookup_insert_ne by done. apply Hall.
Qed.

(** X8. A registration that fails on the handler's signature for a channel
    name not seen before does show in the exported schema: if the export
    returned a document before, it returns afterwards the document with
    one more channel, that name, with an empty entry; and if a registered
    shape made the export raise before, the export still raises. *)
Theorem failed_registration_shows_in_schema
    (app : Application.t) (channel_name event_name : string)
    (func : Func.t) (log : list effect) :
  ChannelRouter.channels (Application.router app) !! channel_name = None →
  length (Func.parameters func) ≠ 1 →
  let app' :=
    state_after (Application.register_subscription channel_name event_name func)
      app log in
  (router_describable (Application.router app) →
   ∃ chans : gmap string value,
     Application.schema app =
       Return (VDict {[ "asyncapi" := VStr "2.2.0"; "channels" := VDict chans ]}) ∧
     chans !! channel_name = None ∧
     Application.schema app' =
       Return (VDict {[ "asyncapi" := VStr "2.2.0";
                        "channels" := VDict (<[channel_name := VDict ∅]> chans) ]})) ∧
  (∀ err,
     router_raises (Application.router app) err →
     ∃ err', Application.schema app' = Raise err').
Proof.
  intros Hnew Hbad app'.
  assert (Hrouter : Application.router app' =
            ChannelRouter.set_channels
              (<[channel_name := Channel.init]>
                 (ChannelRouter.channels (Application.router app)))
              (Application.router app)).
  { subst app'. rewrite Application_state_after_register.
    rewrite ChannelRouter_state_after_register, Channel_state_after_register.
    rewrite Subscription_init_bad by assumption. rewrite Hnew. reflexivity. }
  split.
  - intros Hall.
    exists ((λ ch, VDict (channel_document ch))
            <$> ChannelRouter.channels (Application.router app)).
    split; [by apply Application_schema_channels|].
    split; [by rewrite lookup_fmap, Hnew|].
    rewrite Application_schema_channels.
    + rewrite Hrouter. cbn. rewrite fmap_insert. reflexivity.
    + subst app'. rewrite Application_state_after_register. cbn.
      apply register_describable; [exact Hall|].
      rewrite Subscription_init_bad by assumption. discriminate.
  - intros err (name & ch & Hch & Hraise).
    destruct (Application_schema_raises app' err) as (err' & Hschema & _).
    + exists name, ch. split; [|exact Hraise].
      rewrite Hrouter. cbn. rewrite lookup_insert_ne; [exact Hch | congruence].
    + by exists err'.
Qed.

Lemma failed_registration_shows_in_schema_witness :
  (∃ chans : gmap string value,
     Application.schema chat_app =
       Return (VDict {[ "asyncapi" := VStr "2.2.0"; "channels" := VDict chans ]}) ∧
     chans !! "orders" = None ∧
     Application.schema
       (state_after (Application.register_subscription "orders" "created" no_params)
          chat_app []) =
       Return (VDict {[ "asyncapi" := VStr "2.2.0";
                        "channels" := VDict (<["orders" := VDict ∅]> chans) ]})) ∧
  (∃ err',
     Application.schema
       (state_after (Application.register_subscription "orders" "created" no_params)
          untyped_app []) = Raise err').
Proof.
  split.
  - apply (proj1 (failed_registration_shows_in_schema chat_app "orders" "created"
                    no_params [] eq_refl ltac:(simpl; lia))).
    eapply (proj2 (Application_schema_inv chat_app)). reflexivity.
  - apply (proj2 (failed_registration_shows_in_schema untyped_app "orders" "created"
                    no_params [] eq_refl ltac:(simpl; lia))
             (Foreign "AttributeError"
                (VStr "type object '_empty' has no attribute 'schema'"))).
    eexists "chat", _. split; [reflexivity|].
    left. eexists "raw", _. split; reflexivity.
Defined.



(** ** Publish descriptors *)

Lemma Channel_state_after_register_publish event_name shape ch log :
  state_after (Channel.register_publish event_name shape) ch log =
  Channel.set_publishers
    (<[event_name := Publish.init shape]> (Channel.publishers ch)) ch.
Proof.
  unfold state_after. rewrite Channel_register_publish_run. reflexivity.
Qed.

(** X10. [Channel.register_publish] documents and does nothing else: for a
    channel whose shapes are describable and a shape whose [schema()]
    returns [s], the channel's schema afterwards holds the payload wrapper
    of [s] under [subscribe / <event>] and its ["publish"] entry is what it
    was; and, whatever the shapes, dispatch on the channel returns or
    raises, and logs, what it did before. *)
Theorem register_publish_documents_only
    (ch : Channel.t) (event_name : string) (shape : Model.t) (log : list effect) :
  let ch' := state_after (Channel.register_publish event_name shape) ch log in
  (∀ s,
     channel_describable ch →
     Model.schema shape = Return s →
     ∃ doc doc',
       Channel.schema ch = Return doc ∧
       Channel.schema ch' = Return doc' ∧
       getpath doc' ["subscribe"; event_name] = Some (VDict {[ "payload" := s ]}) ∧
       getitem doc' "publish" = getitem doc "publish") ∧
  ∀ e data log',
    observe (Channel.process e data) ch' log' =
    observe (Channel.process e data) ch log'.
Proof.
  intros ch'. subst ch'. rewrite Channel_state_after_register_publish.
  split.
  - intros s [Hsubs Hpubs] Hs.
    assert (Hall' : channel_describable
              (Channel.set_publishers
                 (<[event_name := Publish.init shape]> (Channel.publishers ch)) ch)).
    { split; [exact Hsubs|]. intros e pub Hpub. cbn in Hpub.
      destruct (decide (event_name = e)) as [-> | He].
      - rewrite lookup_insert_eq in Hpub. injection Hpub as <-. by exists s.
      - rewrite lookup_insert_ne in Hpub by done. by apply (Hpubs e). }
    eexists _, _.
    split; [by apply Channel_schema_document|].
    split; [by apply Channel_schema_document|].
    split.
    + rewrite getpath_dict, channel_document_subscribe.
      cbn [Channel.set_publishers Channel.publishers].
      rewrite decide_False by apply insert_non_empty.
      rewrite getpath_dict, lookup_fmap, lookup_insert_eq. cbn.
      unfold payload_wrapper. cbn. by rewrite (described_return _ _ Hs).
    + cbn [getitem]. rewrite !channel_document_publish. reflexivity.
  - intros e data log'. unfold observe. rewrite !Channel_process_run. cbn.
    destruct (Channel.subscribers ch !! e) as [sub|]; [|reflexivity].
    destruct (Subscription.process data sub log') as [[r sub'] log'']. reflexivity.
Qed.

Lemma register_publish_documents_only_witness :
  ∃ doc doc',
    Channel.schema chat_channel = Return doc ∧
    Channel.schema
      (state_after (Channel.register_publish "shipped" Shipped) chat_channel []) =
      Return doc' ∧
    getpath doc' ["subscribe"; "shipped"] =
      Some (VDict {[ "payload" := described Shipped ]}) ∧
    getitem doc' "publish" = getitem doc "publish".
Proof.
  apply (proj1 (register_publish_documents_only chat_channel "shipped" Shipped [])
           (described Shipped)).
  - eapply (proj2 (Channel_schema_inv chat_channel)). reflexivity.
  - reflexivity.
Defined.

(** X11. Publish descriptors are overwritten like subscriptions, and their
    registration never fails: two calls of [Channel.register_publish] for
    one event name both return, the second emits the overwrite warning, the
    registry does not grow, the shape stored is the second, and the channel
    is the one the second call alone would have left. *)
Theorem register_publish_twice_last_wins
    (ch : Channel.t) (event_name : string) (m1 m2 : Model.t) (log : list effect) :
  ∃ ch1 log1 ch2,
    Channel.register_publish event_name m1 ch log = (Return VNone, ch1, log1) ∧
    Channel.register_publish event_name m2 ch1 log1 =
      (Return VNone, ch2,
       log1 ++ [Warned ("overwriting existing publish for " +:+ event_name)]) ∧
    Channel.publishers ch2 !! event_name = Some {| Publish.model := m2 |} ∧
    size (Channel.publishers ch2) = size (Channel.publishers ch1) ∧
    ch2 = state_after (Channel.register_publish event_name m2) ch log.
Proof.
  eexists _, _, _.
  split; [apply Channel_register_publish_run|].
  split.
  { rewrite Channel_register_publish_run. cbn. rewrite lookup_insert_eq. reflexivity. }
  cbn. split; [apply lookup_insert_eq|].
  split.
  - apply map_size_insert_Some. rewrite lookup_insert_eq. eauto.
  - rewrite Channel_state_after_register_publish. unfold Channel.set_publishers. cbn.
    by rewrite insert_insert_eq.
Qed.

(** ** Invariants of a session *)

Lemma on_router_state_after {A} (m : M ChannelRouter.t A) app log :
  Application.router (state_after (Application.on_router m) app log) =
  state_after m (Application.router app) log.
Proof.
  unfold state_after, Application.on_router.
  destruct (m (Application.router app) log) as [[r router'] log']. reflexivity.
Qed.

(** A call of the API leaves the router as it was, or as one
    [ChannelRouter.register_subscription] leaves it. *)
Lemma perform_router (decoder : Decoder) c app log :
  Application.router (state_after (perform c) app log) = Application.router app ∨
  ∃ channel_name event_name func,
    Application.router (state_after (perform c) app log) =
    state_after (ChannelRouter.register_subscription channel_name event_name func)
      (Application.router app) log.
Proof.
  pose proof (@on_router_state_after) as Hon. unfold state_after in *.
  destruct c; cbn [perform]; rewrite discard_result_self.
  - right. exists channel, name, func. apply Hon.
  - right. exists channel_name, event_name, func.
    unfold Application.subscribe. rewrite discard_result_self. apply Hon.
  - left. unfold Application.process. rewrite run_bind. unfold lift.
    destruct (parse_raw message) as [envelope|err]; [|reflexivity].
    rewrite Hon. apply ChannelRouter_process_self.
  - left. reflexivity.
  - right. exists channel_name, event_name, func. apply Hon.
  - right. exists channel_name, event_name, func.
    rewrite Hon. unfold ChannelRouter.subscribe. apply discard_result_self.
  - left. rewrite Hon. apply ChannelRouter_process_self.
  - left. reflexivity.
Qed.

(** A property of routers that registration preserves holds throughout a
    session. *)
Lemma session_preserves (decoder : Decoder) (P : ChannelRouter.t → Prop) :
  (∀ router channel_name event_name func log,
     P router →
     P (state_after (ChannelRouter.register_subscription channel_name event_name func)
          router log)) →
  ∀ calls app log,
    P (Application.router app) →
    P (Application.router (session calls app log).1).
Proof.
  intros Hstep calls. induction calls as [|c calls IH]; intros app log HP; [exact HP|].
  cbn [session].
  pose proof (perform_router decoder c app log) as Hrouter.
  unfold state_after in Hrouter at 1 2.
  destruct (perform c app log) as [[r app'] log']. cbn in Hrouter.
  apply IH. destruct Hrouter as [-> | (cn & en & f & ->)]; [exact HP|].
  by apply Hstep.
Qed.

Lemma register_extends router channel_name event_name func log :
  router_extends router
    (state_after (ChannelRouter.register_subscription channel_name event_name func)
       router log).
Proof.
  split.
  - intros c Hc. rewrite ChannelRouter_state_after_register. cbn.
    destruct (decide (channel_name = c)) as [-> | Hne].
    + rewrite lookup_insert_eq. eauto.
    + by rewrite lookup_insert_ne.
  - intros c e Hce. rewrite registered_after_register.
    destruct (Subscription.init func); [|exact Hce].
    destruct (decide (c = channel_name ∧ e = event_name)); [eauto | exact Hce].
Qed.

(** X12. Nothing is ever unregistered: whatever calls a client makes on an
    [Application] and its router, every channel known before is known
    after, and every (channel, event) pair that had a subscription before
    has one after. *)
Theorem session_only_grows
    (decoder : Decoder) (calls : list api_call) (app : Application.t)
    (log : list effect) :
  router_extends (Application.router app)
    (Application.router (session calls app log).1).
Proof.
  apply (session_preserves decoder (router_extends (Application.router app))).
  - intros router cn en f log' [Hch Hsub].
    destruct (register_extends router cn en f log') as [Hch' Hsub'].
    split; eauto.
  - split; auto.
Qed.

Lemma Subscription_init_built func sub :
  Subscription.init func = Return sub →
  Subscription.func sub = func ∧ built_by_init sub.
Proof.
  unfold Subscription.init.
  destruct (decide (length (Func.parameters func) ≠ 1)); [discriminate|].
  destruct (Func.parameters func) as [|p [|q rest]] eqn:Hparams; cbn in *;
    try (exfalso; lia).
  intros [= <-]. split; [reflexivity|]. unfold built_by_init. cbn.
  split; [by rewrite Hparams | by exists p].
Qed.

(** X13. Every subscription a session stores went through
    [Subscription.__init__]: if the handlers of the registered
    subscriptions have exactly one parameter, whose annotation is the
    subscription's payload shape, this is still so after any calls on the
    [Application] and its router; in particular it is so in every state
    reached from a fresh [Application]. *)
Theorem session_subscriptions_built
    (decoder : Decoder) (calls : list api_call) (app : Application.t)
    (log : list effect) :
  router_subscriptions_built (Application.router app) →
  router_subscriptions_built (Application.router (session calls app log).1).
Proof.
  apply (session_preserves decoder router_subscriptions_built).
  intros router cn en f log' Hinv c e sub.
  rewrite registered_after_register.
  destruct (Subscription.init f) as [new|err] eqn:Hinit; [|apply Hinv].
  destruct (decide (c = cn ∧ e = en)); [|apply Hinv].
  intros [= <-]. by apply (Subscription_init_built f).
Qed.

Lemma session_subscriptions_built_witness :
  router_subscriptions_built
    (Application.router
       (@session decode_sample
          [CallSubscribe "chat" "message" on_message;
           CallRegisterSubscription "chat" "typing" two_params;
           CallProcess chat_hi]
          Application.init []).1).
Proof.
  apply (session_subscriptions_built decode_sample _ Application.init []).
  intros c e sub Hsub. unfold registered in Hsub. cbn in Hsub.
  rewrite lookup_empty in Hsub. discriminate Hsub.
Defined.

(** ** The decorator form *)

(** X14. The decorator returned by [Application.subscribe] registers like
    [Application.register_subscription] and hands the handler back: applied
    to a handler of one parameter it returns that very handler, which is
    then the one registered for the pair; applied to any other handler it
    raises the signature error and the pair keeps the subscription it had,
    if any. *)
Theorem subscribe_decorator
    (app : Application.t) (channel_name event_name : string) (func : Func.t)
    (log : list effect) :
  (∀ p, Func.parameters func = [p] →
     ∃ app' log',
       Application.subscribe channel_name event_name func app log =
         (Return func, app', log') ∧
       Application.register_subscription channel_name event_name func app log =
         (Return VNone, app', log') ∧
       registered (Application.router app') channel_name event_name =
         Some {| Subscription.func := func; Subscription.signature := [p];
                 Subscription.model := Func.annotation p |}) ∧
  (length (Func.parameters func) ≠ 1 →
     ∃ app' log',
       Application.subscribe channel_name event_name func app log =
         (Raise Exception_, app', log') ∧
       Application.register_subscription channel_name event_name func app log =
         (Raise Exception_, app', log') ∧
       registered (Application.router app') channel_name event_name =
         registered (Application.router app) channel_name event_name).
Proof.
  pose proof (registered_after_register channel_name event_name func
                (Application.router app) log channel_name event_name) as Hafter.
  rewrite <- on_router_state_after in Hafter.
  unfold Application.subscribe. rewrite run_bind.
  unfold Application.register_subscription in *. unfold state_after in Hafter.
  unfold Application.on_router in *.
  rewrite ChannelRouter_register_subscription_run in *. cbn zeta in *.
  rewrite Channel_register_subscription_run in *.
  split.
  - intros p Hone. rewrite (Subscription_init_one _ _ Hone) in *. cbn in *.
    eexists _, _. split; [reflexivity|]. split; [reflexivity|].
    cbn. rewrite Hafter. by rewrite decide_True.
  - intros Hbad. rewrite Subscription_init_bad in * by assumption. cbn in *.
    eexists _, _. split; [reflexivity|]. split; [reflexivity|].
    cbn. exact Hafter.
Qed.

Lemma subscribe_decorator_witness :
  (∃ app' log',
     Application.subscribe "chat" "message" on_message Application.init [] =
       (Return on_message, app', log') ∧
     Application.register_subscription "chat" "message" on_message
       Application.init [] = (Return VNone, app', log') ∧
     registered (Application.router app') "chat" "message" = Some chat_sub) ∧
  (∃ app' log',
     Application.subscribe "chat" "message" no_params chat_app [] =
       (Raise Exception_, app', log') ∧
     Application.register_subscription "chat" "message" no_params chat_app [] =
       (Raise Exception_, app', log') ∧
     registered (Application.router app') "chat" "message" =
       registered (Application.router chat_app) "chat" "message").
Proof.
  split.
  - apply (proj1 (subscribe_decorator Application.init "chat" "message" on_message [])
             msg_param).
    reflexivity.
  - apply (proj2 (subscribe_decorator chat_app "chat" "message" no_params [])).
    simpl. lia.
Defined.

(** ** Dispatch is stateless *)

(** X15. Dispatch keeps no record of what it delivered and does not consume
    the subscription: for a registered pair and a payload that its shape
    accepts, [n] dispatches in a row amount to [n] calls in a row of the
    pair's handler on the typed value, and nothing else (both runs end at
    the first call that raises).  This is for handlers as they are taken
    here, which do not change the registration of the pair themselves. *)
Theorem dispatch_repeats
    (router : ChannelRouter.t) (channel_name event_name : string)
    (sub : Subscription.t) (kwargs : gmap string value)
    (validated : value) (log : list effect) (n : nat) :
  registered router channel_name event_name = Some sub →
  Model.call (Subscription.model sub) kwargs = Return validated →
  repeat_call n (ChannelRouter.process channel_name event_name (VDict kwargs))
    router log =
  repeat_call n (invoke (Subscription.func sub) validated) router log.
Proof.
  intros Hsub Hvalid. rewrite registered_lookup in Hsub.
  destruct (ChannelRouter.channels router !! channel_name) as [ch|] eqn:Hch;
    [|discriminate].
  assert (Hstep : ∀ l,
            ChannelRouter.process channel_name event_name (VDict kwargs) router l =
            invoke (Subscription.func sub) validated router l).
  { intros l. rewrite ChannelRouter_process_run, Hch, Channel_process_run, Hsub.
    rewrite Subscription_process_run, Hvalid. reflexivity. }
  revert log. induction n as [|n IH]; intros log; [reflexivity|].
  cbn [repeat_call]. rewrite !run_bind, Hstep.
  change (invoke (Subscription.func sub) validated router log)
    with (Func.call (Subscription.func sub) validated, router,
          log ++ [Invoked (Subscription.func sub) validated]).
  destruct (Func.call (Subscription.func sub) validated) as [result|err] eqn:Hcall;
    [|reflexivity].
  rewrite !run_bind, IH. reflexivity.
Qed.

Lemma dispatch_repeats_witness :
  repeat_call 2 (ChannelRouter.process "chat" "message" hi) chat_router [] =
  repeat_call 2
    (invoke on_message (VObj "TextMessage" {[ "text" := VStr "hi" ]}))
    chat_router [].
Proof.
  exact (dispatch_repeats chat_router "chat" "message" chat_sub
           {[ "text" := VStr "hi" ]}
           (VObj "TextMessage" {[ "text" := VStr "hi" ]}) [] 2
           eq_refl eq_refl).
Defined.

(** ** When registration warns *)

(** X16. [ChannelRouter.register_subscription] warns exactly when the pair
    already has a subscription, whether or not the new handler is then
    accepted, and logs nothing else: no warning for a new channel or a new
    event, and no handler is invoked by a registration. *)
Theorem registration_warns_iff_registered
    (router : ChannelRouter.t) (channel_name event_name : string)
    (func : Func.t) (log : list effect) :
  (ChannelRouter.register_subscription channel_name event_name func router log).2 =
  match registered router channel_name event_name with
  | Some _ =>
      log ++ [Warned ("overwriting existing subscription for " +:+ event_name)]
  | None => log
  end.
Proof.
  rewrite ChannelRouter_register_subscription_run, registered_lookup. cbn zeta.
  rewrite Channel_register_subscription_run. unfold log_after_check.
  destruct (ChannelRouter.channels router !! channel_name) as [ch|]; cbn;
    destruct (Subscription.init func); cbn; try reflexivity.
Qed.

(** ** Decorators below the application *)

(** X17. The decorators of [Channel] and [ChannelRouter] register too:
    applied to a handler of one parameter each returns that very handler,
    and a later dispatch on the same receiver, for the same event (and
    channel), of a payload that the parameter's annotation accepts invokes
    that handler once on the typed value and has its outcome. *)
Theorem decorated_handler_is_dispatched
    (ch : Channel.t) (router : ChannelRouter.t)
    (channel_name event_name : string) (func : Func.t) (p : Func.Param)
    (kwargs : gmap string value) (validated : value) (log log2 : list effect) :
  Func.parameters func = [p] →
  Model.call (Func.annotation p) kwargs = Return validated →
  (∃ ch' log',
     Channel.subscribe event_name func ch log = (Return func, ch', log') ∧
     Channel.process event_name (VDict kwargs) ch' log2 =
       (Func.call func validated, ch', log2 ++ [Invoked func validated])) ∧
  (∃ router' log',
     ChannelRouter.subscribe channel_name event_name func router log =
       (Return func, router', log') ∧
     ChannelRouter.process channel_name event_name (VDict kwargs) router' log2 =
       (Func.call func validated, router', log2 ++ [Invoked func validated])).
Proof.
  intros Hone Hvalid. split.
  - unfold Channel.subscribe. rewrite run_bind.
    rewrite Channel_register_subscription_run, (Subscription_init_one _ _ Hone).
    eexists _, _. split; [reflexivity|].
    rewrite Channel_process_run. cbn. rewrite lookup_insert_eq.
    rewrite Subscription_process_run. cbn. rewrite Hvalid. reflexivity.
  - unfold ChannelRouter.subscribe. rewrite run_bind.
    rewrite (ChannelRouter_register_one _ _ _ _ _ _ Hone).
    eexists _, _. split; [reflexivity|].
    rewrite ChannelRouter_process_run. cbn. rewrite lookup_insert_eq.
    rewrite Channel_process_run. cbn. rewrite lookup_insert_eq.
    rewrite Subscription_process_run. cbn. rewrite Hvalid. reflexivity.
Qed.

Lemma decorated_handler_is_dispatched_witness :
  (∃ ch' log',
     Channel.subscribe "message" on_message Channel.init [] =
       (Return on_message, ch', log') ∧
     Channel.process "message" hi ch' [] =
       (Return (VStr "hi"), ch',
        [Invoked on_message (VObj "TextMessage" {[ "text" := VStr "hi" ]})])) ∧
  (∃ router' log',
     ChannelRouter.subscribe "chat" "message" on_message ChannelRouter.init [] =
       (Return on_message, router', log') ∧
     ChannelRouter.process "chat" "message" hi router' [] =
       (Return (VStr "hi"), router',
        [Invoked on_message (VObj "TextMessage" {[ "text" := VStr "hi" ]})])).
Proof.
  exact (decorated_handler_is_dispatched Channel.init ChannelRouter.init
           "chat" "message" on_message msg_param {[ "text" := VStr "hi" ]}
           (VObj "TextMessage" {[ "text" := VStr "hi" ]}) [] []
           eq_refl eq_refl).
Defined.
